(** * A shallow embedding of the Appwrite Go client (package [appwrite])

    The repository holds two near-identical copies of one HTTP client:
    [src/client.go] and [src/unnamed/part_000].  Both are embedded here
    (modules [ClientGo] and [Part000]); the declarations that are the
    same text in both files are embedded once.

    What the Go standard library does ([encoding/json], [net/url], the
    network itself) is not part of the repository.  The pieces whose
    behaviour the client relies on are either modelled after their
    documentation ([http.Header.Set], [url.Values], [http.NewRequest])
    or taken as the fields of a [Runtime] (JSON codec, URL parser,
    query escaping, quoting, and the helper [ToString], which lives in
    a file of the package that is not under [src/]). *)

From Stdlib Require Import String Ascii Bool Arith ZArith Lia.
From stdpp Require Import base option list gmap strings sorting.

Local Open Scope string_scope.
Local Open Scope list_scope.

(** ** Bytes, errors, panics *)

(** [[]byte] and [string] are both byte sequences. *)
Abbreviation Bytes := string (only parsing).

(** A Go [error] value; only its message is kept. *)
Inductive error : Type := Err (msg : string).

(** A Go call either returns or panics. *)
Inductive Outcome (A : Type) : Type :=
| Return (a : A)
| Panic (msg : string).
Arguments Return {A} a.
Arguments Panic {A} msg.

(** ** ASCII case *)

Definition is_lower (c : ascii) : bool :=
  let n := nat_of_ascii c in Nat.leb 97 n && Nat.leb n 122.

Definition is_upper (c : ascii) : bool :=
  let n := nat_of_ascii c in Nat.leb 65 n && Nat.leb n 90.

Definition is_digit (c : ascii) : bool :=
  let n := nat_of_ascii c in Nat.leb 48 n && Nat.leb n 57.

Definition to_upper (c : ascii) : ascii :=
  if is_lower c then ascii_of_nat (nat_of_ascii c - 32) else c.

Definition to_lower (c : ascii) : ascii :=
  if is_upper c then ascii_of_nat (nat_of_ascii c + 32) else c.

(** [strings.ToUpper].  Go maps every rune to its Unicode upper case;
    here only the ASCII letters change.  The client only compares the
    result with ["GET"], and no rune other than [g], [e], [t] has [G],
    [E] or [T] as its upper case, so the comparison is the same. *)
Fixpoint ToUpper (s : string) : string :=
  match s with
  | EmptyString => EmptyString
  | String c s' => String (to_upper c) (ToUpper s')
  end.

(** ** Go maps

    A [map[string]V] is either [nil] or a set of entries with distinct
    keys.  [range] visits the entries in an order the language leaves
    open: the list is the map together with the order of one visit, and
    a statement over all lists covers every order. *)
Inductive GoMap (V : Type) : Type :=
| nilmap
| mkmap (entries : list (string * V)).
Arguments nilmap {V}.
Arguments mkmap {V} entries.

Definition range {V} (m : GoMap V) : list (string * V) :=
  match m with
  | nilmap => []
  | mkmap l => l
  end.

Definition GoMap_wf {V} (m : GoMap V) : Prop := NoDup (range m).*1.

Fixpoint entries_put {V} (k : string) (v : V) (l : list (string * V))
  : list (string * V) :=
  match l with
  | [] => [(k, v)]
  | (k', v') :: l' =>
      if String.eqb k k' then (k, v) :: l' else (k', v') :: entries_put k v l'
  end.

(** [m[k] = v]: assignment to an entry of a nil map panics. *)
Definition assign {V} (m : GoMap V) (k : string) (v : V) : Outcome (GoMap V) :=
  match m with
  | nilmap => Panic "assignment to entry in nil map"
  | mkmap l => Return (mkmap (entries_put k v l))
  end.

(** ** [http.Header] *)

(** [token] bytes of RFC 7230, as [net/textproto] and [net/http] test
    header names and methods. *)
Definition validHeaderFieldByte (c : ascii) : bool :=
  is_lower c || is_upper c || is_digit c
  || existsb (Ascii.eqb c) (list_ascii_of_string "!#$%&'*+-.^_`|~").

Fixpoint canonical_case (upper : bool) (s : string) : string :=
  match s with
  | EmptyString => EmptyString
  | String c s' =>
      let c' := if upper then to_upper c else to_lower c in
      String c' (canonical_case (Ascii.eqb c' "-") s')
  end.

(** [textproto.CanonicalMIMEHeaderKey]: first letter and every letter
    after a hyphen in upper case, the others in lower case; a key with
    a byte that is not a token byte is returned as it is. *)
Definition CanonicalMIMEHeaderKey (s : string) : string :=
  if forallb validHeaderFieldByte (list_ascii_of_string s)
  then canonical_case true s
  else s.

(** [type Header map[string][]string], keyed by canonical names. *)
Abbreviation Header := (gmap string (list string)) (only parsing).

Definition Header_Set (h : Header) (key value : string) : Header :=
  <[CanonicalMIMEHeaderKey key := [value]]> h.

Definition Header_Values (h : Header) (key : string) : list string :=
  default [] (h !! CanonicalMIMEHeaderKey key).

Definition Header_Get (h : Header) (key : string) : string :=
  match Header_Values h key with
  | [] => ""
  | v :: _ => v
  end.

(** ** [url.Values] and [url.URL] *)

Abbreviation Values := (gmap string (list string)) (only parsing).

Definition Values_Add (q : Values) (key value : string) : Values :=
  <[key := default [] (q !! key) ++ [value]]> q.

Definition key_le {V} (p1 p2 : string * V) : Prop :=
  String.leb p1.1 p2.1 = true.

Global Instance key_le_dec {V} (p1 p2 : string * V) : Decision (key_le p1 p2).
Proof. unfold key_le. solve_decision. Defined.

Record URL : Type := mkURL {
  Scheme : string;
  Host : string;
  Path : string;
  RawQuery : string;
  Fragment : string
}.

Definition URL_with_RawQuery (u : URL) (q : string) : URL :=
  {| Scheme := Scheme u; Host := Host u; Path := Path u;
     RawQuery := q; Fragment := Fragment u |}.

Definition URL_with_Host (u : URL) (host : string) : URL :=
  {| Scheme := Scheme u; Host := host; Path := Path u;
     RawQuery := RawQuery u; Fragment := Fragment u |}.

(** [hasPort] of [net/http]: the last [:] of the host comes after its
    last [\]]. *)
Fixpoint colon_after_bracket (seen : bool) (host : string) : bool :=
  match host with
  | EmptyString => seen
  | String c host' =>
      colon_after_bracket
        (if Ascii.eqb c ":" then true
         else if Ascii.eqb c "]" then false else seen) host'
  end.

Definition hasPort (host : string) : bool := colon_after_bracket false host.

(** [strings.TrimSuffix(host, ":")] *)
Fixpoint trim_colon (host : string) : string :=
  match host with
  | EmptyString => EmptyString
  | String c EmptyString => if Ascii.eqb c ":" then EmptyString else host
  | String c host' => String c (trim_colon host')
  end.

(** [removeEmptyPort] of [net/http]: [host:] becomes [host]. *)
Definition removeEmptyPort (host : string) : string :=
  if hasPort host then trim_colon host else host.

(** ** Requests, responses, the world *)

Record Request : Type := mkRequest {
  Method : string;
  ReqURL : URL;
  ReqHeader : Header;
  ReqBody : option Bytes      (* [None]: no body (a nil [io.Reader]) *)
}.

Definition Request_Header_Set (req : Request) (key value : string) : Request :=
  {| Method := Method req; ReqURL := ReqURL req;
     ReqHeader := Header_Set (ReqHeader req) key value;
     ReqBody := ReqBody req |}.

Definition Request_with_RawQuery (req : Request) (q : string) : Request :=
  {| Method := Method req; ReqURL := URL_with_RawQuery (ReqURL req) q;
     ReqHeader := ReqHeader req; ReqBody := ReqBody req |}.

Record Response : Type := mkResponse {
  StatusCode : Z;
  RespHeader : Header;
  RespBody : Bytes
}.

Definition Response_with_StatusCode (r : Response) (code : Z) : Response :=
  {| StatusCode := code; RespHeader := RespHeader r; RespBody := RespBody r |}.

(** The address of an [http.Client] value made by [&http.Client{}]. *)
Definition Handle : Type := nat.

(** Everything outside the [Client] value that a call reads or writes:
    the allocator, the standard logger's output, the requests handed to
    the transport so far, and the network, which answers a request
    knowing what was sent before. *)
Record World : Type := mkWorld {
  next_handle : Handle;
  log_lines : list string;
  sent : list (Handle * Request);
  network : list (Handle * Request) -> Handle -> Request -> Response + error
}.

Definition M (A : Type) : Type := World -> Outcome A * World.

Global Instance M_ret : MRet M := fun A a w => (Return a, w).

Global Instance M_bind : MBind M := fun A B f m w =>
  match m w with
  | (Return a, w') => f a w'
  | (Panic msg, w') => (Panic msg, w')
  end.

Definition panic {A} (msg : string) : M A := fun w => (Panic msg, w).

Definition lift {A} (o : Outcome A) : M A := fun w => (o, w).

(** [&http.Client{}]: a fresh address. *)
Definition new_http_Client : M Handle := fun w =>
  (Return (next_handle w),
   {| next_handle := S (next_handle w); log_lines := log_lines w;
      sent := sent w; network := network w |}).

(** [log.Println(line)]. *)
Definition log_Println (line : string) : M unit := fun w =>
  (Return tt,
   {| next_handle := next_handle w; log_lines := log_lines w ++ [line];
      sent := sent w; network := network w |}).

(** [c.Do(req)] on a [*http.Client]; a nil receiver is dereferenced. *)
Definition http_Client_Do (c : option Handle) (req : Request)
  : M (Response + error) :=
  match c with
  | None => panic "invalid memory address or nil pointer dereference"
  | Some h => fun w =>
      (Return (network w (sent w) h req),
       {| next_handle := next_handle w; log_lines := log_lines w;
          sent := sent w ++ [(h, req)]; network := network w |})
  end.

(** ** What the client takes from outside the two files *)

Class Runtime : Type := {
  (** the dynamic values an [interface{}] argument can hold *)
  Value : Type;
  (** [ToString], the package's own helper (not in these files) *)
  ToString : Value -> string;
  (** what a decoded JSON document holds *)
  JSONValue : Type;
  (** [json.Marshal] on a [map[string]interface{}] *)
  json_Marshal : GoMap Value -> Bytes + error;
  (** [json.NewDecoder(body).Decode(&m)] with [m] a nil map before the
      call: the map afterwards, and the error *)
  json_Decode : Bytes -> GoMap JSONValue * option error;
  (** [url.Parse] *)
  url_Parse : string -> URL + error;
  (** [url.ParseQuery], whose error [URL.Query] drops *)
  url_ParseQuery : string -> Values;
  (** [url.QueryEscape] *)
  url_QueryEscape : string -> string;
  (** [strconv.Quote], the [%q] of the errors of [net/http] *)
  strconv_Quote : string -> string
}.

(** [type Client struct], the same in both files. *)
Record Client : Type := mkClient {
  client : option Handle;          (* [*http.Client], [None] is nil *)
  endpoint : string;
  headers : GoMap string;
  selfSigned : bool
}.

(** The zero value [Client{}]. *)
Definition zero_Client : Client :=
  {| client := None; endpoint := ""; headers := nilmap; selfSigned := false |}.

(** *** The setters (same text in both files) *)

Definition SetEndpoint (clt : Client) (ep : string) : Outcome Client :=
  Return {| client := client clt; endpoint := ep;
            headers := headers clt; selfSigned := selfSigned clt |}.

Definition SetSelfSigned (clt : Client) (status : bool) : Outcome Client :=
  Return {| client := client clt; endpoint := endpoint clt;
            headers := headers clt; selfSigned := status |}.

Definition with_headers (clt : Client) (o : Outcome (GoMap string))
  : Outcome Client :=
  match o with
  | Panic msg => Panic msg
  | Return h => Return {| client := client clt; endpoint := endpoint clt;
                          headers := h; selfSigned := selfSigned clt |}
  end.

Definition AddHeader (clt : Client) (key value : string) : Outcome Client :=
  with_headers clt (assign (headers clt) key value).

Definition SetProject (clt : Client) (value : string) : Outcome Client :=
  with_headers clt (assign (headers clt) "X-Appwrite-Project" value).

Definition SetKey (clt : Client) (value : string) : Outcome Client :=
  with_headers clt (assign (headers clt) "X-Appwrite-Key" value).

Definition SetLocale (clt : Client) (value : string) : Outcome Client :=
  with_headers clt (assign (headers clt) "X-Appwrite-Locale" value).

Definition SetMode (clt : Client) (value : string) : Outcome Client :=
  with_headers clt (assign (headers clt) "X-Appwrite-Mode" value).

(** *** The helpers that are the same text in both files *)

Definition ensureClientInitialized (clt : Client) : M Client :=
  match client clt with
  | None =>
      h ← new_http_Client;
      mret {| client := Some h; endpoint := endpoint clt;
              headers := headers clt; selfSigned := selfSigned clt |}
  | Some _ => mret clt
  end.

Section Helpers.
Context `{Runtime}.

  (** [Values.Encode]: [key=value] pairs, keys sorted, joined by [&]. *)
Definition Values_pairs (q : Values) : list string :=
    flat_map (fun p => map (fun v => (url_QueryEscape p.1 ++ "=" ++ url_QueryEscape v)%string) p.2)
             (merge_sort key_le (map_to_list q)).

Definition Values_Encode (q : Values) : string :=
    String.concat "&" (Values_pairs q).

(** [http.NewRequest]: the empty method is GET, a method must be made
    of token bytes, the URL is parsed and an empty port taken off its
    host. *)
Definition validMethod (method : string) : bool :=
    negb (String.eqb method "")
    && forallb validHeaderFieldByte (list_ascii_of_string method).

Definition http_NewRequest (method url : string) (body : option Bytes)
    : Request + error :=
    let method := if String.eqb method "" then "GET" else method in
    if negb (validMethod method)
    then inr (Err ("net/http: invalid method " ++ strconv_Quote method)%string)
    else match url_Parse url with
         | inr err => inr err
         | inl u =>
             (* The host's colon:port should be normalized. *)
             let u := URL_with_Host u (removeEmptyPort (Host u)) in
             inl {| Method := method; ReqURL := u;
                    ReqHeader := ∅; ReqBody := body |}
         end.

Definition setHeaders (req : Request) (clientHeaders : GoMap string)
      (customHeaders : GoMap Value) : Request :=
    (* Set Client headers *)
    let req := foldl (fun r kv => Request_Header_Set r kv.1 kv.2)
                     req (range clientHeaders) in
    (* Set Custom headers *)
    foldl (fun r kv => Request_Header_Set r kv.1 (ToString kv.2))
          req (range customHeaders).

Definition updateQueryParameters (req : Request) (params : GoMap Value)
    : Request :=
    let q := url_ParseQuery (RawQuery (ReqURL req)) in
    let q := foldl (fun q kv => Values_Add q kv.1 (ToString kv.2))
                   q (range params) in
    Request_with_RawQuery req (Values_Encode q).

Definition parseJSONResponse (response : Response)
    : GoMap JSONValue * option error :=
    match json_Decode (RespBody response) with
    | (_, Some err) => (nilmap, Some err)
    | (jsonResponse, None) => (jsonResponse, None)
    end.
End Helpers.

(** ** Sequences of calls on one [Client]

    What a program that holds a [Client] can do with it through these
    files: the setters and [Call].  [exec_with] is given the [Call] of
    one of the two files. *)
Section Ops.
Context `{Runtime}.

Inductive Op : Type :=
  | OpSetEndpoint (ep : string)
  | OpSetSelfSigned (status : bool)
  | OpAddHeader (key value : string)
  | OpSetProject (value : string)
  | OpSetKey (value : string)
  | OpSetLocale (value : string)
  | OpSetMode (value : string)
  | OpCall (method path : string) (customHeaders params : GoMap Value).

Variable call :
    Client -> string -> string -> GoMap Value -> GoMap Value ->
    M ((GoMap JSONValue * option error) * Client).

Definition exec_with (clt : Client) (op : Op) : M Client :=
    match op with
    | OpSetEndpoint ep => lift (SetEndpoint clt ep)
    | OpSetSelfSigned status => lift (SetSelfSigned clt status)
    | OpAddHeader key value => lift (AddHeader clt key value)
    | OpSetProject value => lift (SetProject clt value)
    | OpSetKey value => lift (SetKey clt value)
    | OpSetLocale value => lift (SetLocale clt value)
    | OpSetMode value => lift (SetMode clt value)
    | OpCall method path customHeaders params =>
        r ← call clt method path customHeaders params;
        mret r.2
    end.

Fixpoint run_with (clt : Client) (ops : list Op) : M Client :=
    match ops with
    | [] => mret clt
    | op :: ops' =>
        clt' ← exec_with clt op;
        run_with clt' ops'
    end.
End Ops.

(** ** [src/client.go] *)
Module ClientGo.
Section Code.
Context `{Runtime}.

Definition prepareRequestBody (params : GoMap Value) : M (option Bytes) :=
    match json_Marshal params with
    | inr err =>
        (* Handle the error *)
        mret None
    | inl jsonData =>
        _ ← log_Println jsonData;
        mret (Some jsonData)
    end.

Definition Call (clt : Client) (method path : string)
      (customHeaders params : GoMap Value)
    : M ((GoMap JSONValue * option error) * Client) :=
    clt ← ensureClientInitialized clt;
    let urlPath := (endpoint clt ++ path)%string in
    let isGet := String.eqb (ToUpper method) "GET" in
    reqBody ← (if negb isGet then prepareRequestBody params else mret None);
    match http_NewRequest method urlPath reqBody with
    | inr err => mret ((nilmap, Some err), clt)
    | inl req =>
        let req := setHeaders req (headers clt) customHeaders in
        let req := if isGet then updateQueryParameters req params
                   else
                     (* Set the Content-Type header for non-GET requests *)
                     Request_Header_Set req "Content-Type" "application/json" in
        r ← http_Client_Do (client clt) req;
        match r with
        | inr err => mret ((nilmap, Some err), clt)
        | inl response =>
            match parseJSONResponse response with
            | (_, Some err) => mret ((nilmap, Some err), clt)
            | (jsonResponse, None) => mret ((jsonResponse, None), clt)
            end
        end
    end.

Definition run : Client -> list Op -> M Client := run_with Call.
End Code.
End ClientGo.

(** ** [src/unnamed/part_000] *)
Module Part000.
Section Code.
Context `{Runtime}.

Definition prepareRequestBody (params : GoMap Value) : M (option Bytes) :=
    (* Marshal the params map into a JSON string *)
    match json_Marshal params with
    | inr err =>
        (* Handle the error, e.g., return an error response or log it *)
        mret None
    | inl jsonData =>
        _ ← log_Println ("JSON Data: " ++ jsonData)%string;
        mret (Some jsonData)
    end.

Definition Call (clt : Client) (method path : string)
      (customHeaders params : GoMap Value)
    : M ((GoMap JSONValue * option error) * Client) :=
    (* Ensure that the client is initialized once *)
    clt ← ensureClientInitialized clt;
    (* Create the full URL path by combining the endpoint and path *)
    let urlPath := (endpoint clt ++ path)%string in
    (* Check if the request method is GET *)
    let isGet := String.eqb (ToUpper method) "GET" in
    (* Prepare the request body for non-GET requests *)
    reqBody ← (if negb isGet then prepareRequestBody params else mret None);
    (* Create the HTTP request *)
    match http_NewRequest method urlPath reqBody with
    | inr err => mret ((nilmap, Some err), clt)
    | inl req =>
        (* Set the client headers and custom headers *)
        let req := setHeaders req (headers clt) customHeaders in
        (* Update the query parameters for GET requests *)
        let req := if isGet then updateQueryParameters req params else req in
        (* Make the HTTP request *)
        r ← http_Client_Do (client clt) req;
        match r with
        | inr err => mret ((nilmap, Some err), clt)
        | inl response =>
            (* Read and parse the response JSON *)
            match parseJSONResponse response with
            | (_, Some err) => mret ((nilmap, Some err), clt)
            | (jsonResponse, None) => mret ((jsonResponse, None), clt)
            end
        end
    end.

Definition run : Client -> list Op -> M Client := run_with Call.
End Code.
End Part000.

(** ** A small runtime to run the client on

    Values are strings, integers and the float NaN (which
    [json.Marshal] rejects).  The codec and the URL functions cover
    what the examples below need.  Serializing and query escaping:
    parameters without characters that JSON or a query string would
    escape.  URLs: the form [scheme://host/path] without query or
    fragment, and the refusal of control bytes.  Quoting: strings of
    ASCII bytes.  Decoding follows the scanner of [encoding/json] byte
    by byte; numbers are kept as their literals (no range check) and
    the nesting limit is not modelled. *)
Module Sample.
Inductive value : Type :=
  | VStr (s : string)
  | VInt (z : Z)
  | VNaN.

(** What [encoding/json] stores in an [interface{}]; a number is kept
    as its literal. *)
#[local] Unset Elimination Schemes.
Inductive json : Type :=
  | JNull
  | JBool (b : bool)
  | JNum (literal : string)
  | JStr (s : string)
  | JArr (items : list json)
  | JObj (fields : list (string * json)).
#[local] Set Elimination Schemes.

Definition digit (n : nat) : string :=
    String (ascii_of_nat (48 + n)) EmptyString.

Fixpoint digits (fuel n : nat) (acc : string) : string :=
    match fuel with
    | O => acc
    | S fuel' =>
        let acc' := (digit (n mod 10) ++ acc)%string in
        if Nat.ltb n 10 then acc' else digits fuel' (n / 10) acc'
    end.

Definition itoa (z : Z) : string :=
    let n := Z.abs_nat z in
    ((if Z.ltb z 0 then "-" else "") ++ digits (S n) n "")%string.

Definition to_string (v : value) : string :=
    match v with
    | VStr s => s
    | VInt z => itoa z
    | VNaN => "NaN"
    end.

Definition quote (s : string) : string :=
    (String (ascii_of_nat 34) s ++ String (ascii_of_nat 34) EmptyString)%string.

Definition marshal_value (v : value) : string + error :=
    match v with
    | VStr s => inl (quote s)
    | VInt z => inl (itoa z)
    | VNaN => inr (Err "json: unsupported value: NaN")
    end.

Fixpoint marshal_entries (l : list (string * value)) : list string + error :=
    match l with
    | [] => inl []
    | (k, v) :: l' =>
        match marshal_value v, marshal_entries l' with
        | inl sv, inl rest => inl ((quote k ++ ":" ++ sv)%string :: rest)
        | inr e, _ => inr e
        | _, inr e => inr e
        end
    end.

Definition marshal (m : GoMap value) : string + error :=
    match m with
    | nilmap => inl "null"
    | mkmap l =>
        match marshal_entries
                (merge_sort key_le l) with
        | inl fields => inl ("{" ++ String.concat "," fields ++ "}")%string
        | inr e => inr e
        end
    end.

(** *** Quoting, as [strconv] does it *)

Definition char (n : nat) : string := String (ascii_of_nat n) EmptyString.

Definition hex_digit (n : nat) : string :=
  char (if Nat.ltb n 10 then 48 + n else 87 + n).

Definition hex2 (n : nat) : string :=
  (hex_digit (n / 16) ++ hex_digit (n mod 16))%string.

Definition byte (n : N) : string := char (N.to_nat n).

(** [utf8.AppendRune] *)
Definition utf8 (r : N) : string :=
  (if N.ltb r 128 then byte r
   else if N.ltb r 2048 then byte (192 + r / 64) ++ byte (128 + r mod 64)
   else if N.ltb r 65536
        then byte (224 + r / 4096) ++ byte (128 + (r / 64) mod 64)
             ++ byte (128 + r mod 64)
   else byte (240 + r / 262144) ++ byte (128 + (r / 4096) mod 64)
        ++ byte (128 + (r / 64) mod 64) ++ byte (128 + r mod 64))%N%string.

(** U+FFFD, the replacement character *)
Definition RuneError : N := 65533.

(** [strconv.IsPrint] below U+0100 *)
Definition is_print (r : nat) : bool :=
  (Nat.leb 32 r && Nat.leb r 126)
  || (Nat.leb 161 r && Nat.leb r 255 && negb (Nat.eqb r 173)).

(** One rune below U+0100 inside a double-quoted Go string. *)
Definition escaped_rune (r : nat) : string :=
  (if Nat.eqb r 34 || Nat.eqb r 92 then "\" ++ char r
   else if is_print r then utf8 (N.of_nat r)
   else if Nat.eqb r 7 then "\a"
   else if Nat.eqb r 8 then "\b"
   else if Nat.eqb r 12 then "\f"
   else if Nat.eqb r 10 then "\n"
   else if Nat.eqb r 13 then "\r"
   else if Nat.eqb r 9 then "\t"
   else if Nat.eqb r 11 then "\v"
   else if Nat.ltb r 32 || Nat.eqb r 127 then "\x" ++ hex2 r
   else "\u00" ++ hex2 r)%string.

Fixpoint escaped_bytes (s : string) : string :=
  match s with
  | EmptyString => EmptyString
  | String c s' =>
      let n := nat_of_ascii c in
      ((if Nat.ltb n 128 then escaped_rune n else "\x" ++ hex2 n)
       ++ escaped_bytes s')%string
  end.

(** [strconv.Quote] on a string of ASCII bytes. *)
Definition go_quote (s : string) : string := quote (escaped_bytes s).

(** [quoteChar] of [encoding/json]: the byte in an error message. *)
Definition quoteChar (c : ascii) : string :=
  let n := nat_of_ascii c in
  (if Nat.eqb n 39 then "'\''"
   else if Nat.eqb n 34 then "'" ++ char 34 ++ "'"
   else "'" ++ escaped_rune n ++ "'")%string.

(** *** Decoding, as [json.Decoder.Decode] into a nil map does it

    The decoder scans the first JSON value of the body and stops
    there; the errors are those of the scanner of [encoding/json], in
    its words. *)

Inductive parsed (A : Type) : Type :=
  | Parsed (a : A) (rest : string)
  | Failed (e : error).
Arguments Parsed {A} a rest.
Arguments Failed {A} e.

Definition is_space (c : ascii) : bool :=
  let n := nat_of_ascii c in
  Nat.eqb n 32 || Nat.eqb n 9 || Nat.eqb n 13 || Nat.eqb n 10.

Fixpoint skip_space (s : string) : string :=
  match s with
  | EmptyString => EmptyString
  | String c s' => if is_space c then skip_space s' else s
  end.

Definition invalid (c : ascii) (context : string) : error :=
  Err ("invalid character " ++ quoteChar c ++ " " ++ context)%string.

Definition unexpected_EOF : error := Err "unexpected EOF".

Definition hex_value (c : ascii) : option N :=
  let n := nat_of_ascii c in
  if Nat.leb 48 n && Nat.leb n 57 then Some (N.of_nat (n - 48))
  else if Nat.leb 97 n && Nat.leb n 102 then Some (N.of_nat (n - 87))
  else if Nat.leb 65 n && Nat.leb n 70 then Some (N.of_nat (n - 55))
  else None.

Fixpoint hex4 (n : nat) (acc : N) (s : string) : parsed N :=
  match n with
  | O => Parsed acc s
  | S n' =>
      match s with
      | EmptyString => Failed unexpected_EOF
      | String c s' =>
          match hex_value c with
          | Some d => hex4 n' (16 * acc + d)%N s'
          | None => Failed (invalid c "in \u hexadecimal character escape")
          end
      end
  end.

Definition simple_escape (c : ascii) : option nat :=
  let n := nat_of_ascii c in
  if Nat.eqb n 98 then Some 8            (* b *)
  else if Nat.eqb n 102 then Some 12     (* f *)
  else if Nat.eqb n 110 then Some 10     (* n *)
  else if Nat.eqb n 114 then Some 13     (* r *)
  else if Nat.eqb n 116 then Some 9      (* t *)
  else if Nat.eqb n 92 || Nat.eqb n 47 || Nat.eqb n 34 then Some n
  else None.

(** The second half of a surrogate pair, when [rest] holds one. *)
Definition low_surrogate (high : N) (rest : string) : option (N * string) :=
  match rest with
  | String b (String u rest') =>
      if Nat.eqb (nat_of_ascii b) 92 && Nat.eqb (nat_of_ascii u) 117
      then match hex4 4 0 rest' with
           | Parsed low rest'' =>
               if N.ltb high 56320 && N.leb 56320 low && N.ltb low 57344
               then Some (65536 + (high - 55296) * 1024 + (low - 56320), rest'')%N
               else None
           | Failed _ => None
           end
      else None
  | _ => None
  end.

Definition between (lo hi : nat) (c : ascii) : bool :=
  Nat.leb lo (nat_of_ascii c) && Nat.leb (nat_of_ascii c) hi.

(** [utf8.DecodeRune] at a byte of 0x80 or more: the bytes of a valid
    sequence, or U+FFFD for one byte that starts none. *)
Definition decode_utf8 (c : ascii) (rest : string) : string * string :=
  let n := nat_of_ascii c in
  let bad := (utf8 RuneError, rest) in
  if Nat.leb 194 n && Nat.leb n 223 then
    match rest with
    | String c1 r =>
        if between 128 191 c1 then (String c (String c1 EmptyString), r) else bad
    | _ => bad
    end
  else if Nat.leb 224 n && Nat.leb n 239 then
    match rest with
    | String c1 (String c2 r) =>
        if between (if Nat.eqb n 224 then 160 else 128)
                   (if Nat.eqb n 237 then 159 else 191) c1
           && between 128 191 c2
        then (String c (String c1 (String c2 EmptyString)), r) else bad
    | _ => bad
    end
  else if Nat.leb 240 n && Nat.leb n 244 then
    match rest with
    | String c1 (String c2 (String c3 r)) =>
        if between (if Nat.eqb n 240 then 144 else 128)
                   (if Nat.eqb n 244 then 143 else 191) c1
           && between 128 191 c2 && between 128 191 c3
        then (String c (String c1 (String c2 (String c3 EmptyString))), r)
        else bad
    | _ => bad
    end
  else bad.

(** A string literal after its opening quote. *)
Fixpoint parse_string (fuel : nat) (s acc : string) : parsed string :=
  match fuel with
  | O => Failed unexpected_EOF
  | S fuel' =>
      match s with
      | EmptyString => Failed unexpected_EOF
      | String c s' =>
          let n := nat_of_ascii c in
          if Nat.eqb n 34 then Parsed acc s'
          else if Nat.eqb n 92 then
            match s' with
            | EmptyString => Failed unexpected_EOF
            | String e s'' =>
                match simple_escape e with
                | Some x => parse_string fuel' s'' (acc ++ char x)
                | None =>
                    if Nat.eqb (nat_of_ascii e) 117 then
                      match hex4 4 0 s'' with
                      | Failed err => Failed err
                      | Parsed r rest =>
                          if N.leb 55296 r && N.ltb r 57344 then
                            match low_surrogate r rest with
                            | Some (r', rest') =>
                                parse_string fuel' rest' (acc ++ utf8 r')
                            | None =>
                                parse_string fuel' rest (acc ++ utf8 RuneError)
                            end
                          else parse_string fuel' rest (acc ++ utf8 r)
                      end
                    else Failed (invalid e "in string escape code")
                end
            end
          else if Nat.ltb n 32 then Failed (invalid c "in string literal")
          else if Nat.ltb n 128 then
            parse_string fuel' s' (acc ++ String c EmptyString)
          else
            let '(bytes, rest) := decode_utf8 c s' in
            parse_string fuel' rest (acc ++ bytes)
      end
  end%string.

Fixpoint take_digits (s : string) : string * string :=
  match s with
  | EmptyString => (EmptyString, EmptyString)
  | String c s' =>
      if is_digit c
      then let '(ds, rest) := take_digits s' in (String c ds, rest)
      else (EmptyString, s)
  end.

(** One or more digits, or the error of the place they are needed at. *)
Definition need_digits (context : string) (s : string) : parsed string :=
  match s with
  | EmptyString => Failed unexpected_EOF
  | String c _ =>
      if is_digit c
      then let '(ds, rest) := take_digits s in Parsed ds rest
      else Failed (invalid c context)
  end.

Definition parse_exponent (text s : string) : parsed string :=
  match s with
  | String e s1 =>
      if Nat.eqb (nat_of_ascii e) 101 || Nat.eqb (nat_of_ascii e) 69 then
        let '(sign, s2) :=
          match s1 with
          | String g s2 =>
              if Nat.eqb (nat_of_ascii g) 43 || Nat.eqb (nat_of_ascii g) 45
              then (String g EmptyString, s2) else (EmptyString, s1)
          | EmptyString => (EmptyString, s1)
          end in
        match need_digits "in exponent of numeric literal" s2 with
        | Parsed ds rest =>
            Parsed (text ++ String e EmptyString ++ sign ++ ds)%string rest
        | Failed err => Failed err
        end
      else Parsed text s
  | EmptyString => Parsed text s
  end.

Definition parse_fraction (text s : string) : parsed string :=
  match s with
  | String d s1 =>
      if Nat.eqb (nat_of_ascii d) 46 then
        match need_digits "after decimal point in numeric literal" s1 with
        | Parsed ds rest => parse_exponent (text ++ "." ++ ds)%string rest
        | Failed err => Failed err
        end
      else parse_exponent text s
  | EmptyString => Parsed text s
  end.

(** A number from its first byte, a minus sign or a digit. *)
Definition parse_number (s : string) : parsed string :=
  let '(sign, s1) :=
    match s with
    | String c s' =>
        if Nat.eqb (nat_of_ascii c) 45 then ("-", s') else (EmptyString, s)
    | EmptyString => (EmptyString, s)
    end in
  match s1 with
  | EmptyString => Failed unexpected_EOF
  | String c s2 =>
      if Nat.eqb (nat_of_ascii c) 48 then parse_fraction (sign ++ "0")%string s2
      else if is_digit c then
        let '(ds, rest) := take_digits s1 in
        parse_fraction (sign ++ ds)%string rest
      else Failed (invalid c "in numeric literal")
  end.

(** The rest of a literal [name] after its first letter. *)
Fixpoint expect (word name s : string) : parsed unit :=
  match word with
  | EmptyString => Parsed tt s
  | String w word' =>
      match s with
      | EmptyString => Failed unexpected_EOF
      | String c s' =>
          if Ascii.eqb c w then expect word' name s'
          else Failed (invalid c ("in literal " ++ name ++ " (expecting '"
                                  ++ String w EmptyString ++ "')")%string)
      end
  end.

Definition literal (word name : string) (v : json) (s : string) : parsed json :=
  match expect word name s with
  | Parsed _ rest => Parsed v rest
  | Failed err => Failed err
  end.

Fixpoint parse_value (fuel : nat) (s : string) : parsed json :=
  match fuel with
  | O => Failed (Err "exceeded max depth")
  | S fuel' =>
      match skip_space s with
      | EmptyString => Failed unexpected_EOF
      | String c s' =>
          let n := nat_of_ascii c in
          if Nat.eqb n 123 then parse_members fuel' true s' []
          else if Nat.eqb n 91 then parse_items fuel' true s' []
          else if Nat.eqb n 34 then
            match parse_string (S (String.length s')) s' EmptyString with
            | Parsed str rest => Parsed (JStr str) rest
            | Failed err => Failed err
            end
          else if Nat.eqb n 45 || is_digit c then
            match parse_number (String c s') with
            | Parsed text rest => Parsed (JNum text) rest
            | Failed err => Failed err
            end
          else if Nat.eqb n 116 then literal "rue" "true" (JBool true) s'
          else if Nat.eqb n 102 then literal "alse" "false" (JBool false) s'
          else if Nat.eqb n 110 then literal "ull" "null" JNull s'
          else Failed (invalid c "looking for beginning of value")
      end
  end
with parse_members (fuel : nat) (first : bool) (s : string)
       (acc : list (string * json)) : parsed json :=
  match fuel with
  | O => Failed (Err "exceeded max depth")
  | S fuel' =>
      match skip_space s with
      | EmptyString => Failed unexpected_EOF
      | String c s' =>
          if first && Nat.eqb (nat_of_ascii c) 125 then Parsed (JObj acc) s'
          else if Nat.eqb (nat_of_ascii c) 34 then
            match parse_string (S (String.length s')) s' EmptyString with
            | Failed err => Failed err
            | Parsed key r1 =>
                match skip_space r1 with
                | EmptyString => Failed unexpected_EOF
                | String c1 r2 =>
                    if Nat.eqb (nat_of_ascii c1) 58 then
                      match parse_value fuel' r2 with
                      | Failed err => Failed err
                      | Parsed v r3 =>
                          match skip_space r3 with
                          | EmptyString => Failed unexpected_EOF
                          | String c2 r4 =>
                              if Nat.eqb (nat_of_ascii c2) 44
                              then parse_members fuel' false r4
                                     (entries_put key v acc)
                              else if Nat.eqb (nat_of_ascii c2) 125
                              then Parsed (JObj (entries_put key v acc)) r4
                              else Failed
                                     (invalid c2 "after object key:value pair")
                          end
                      end
                    else Failed (invalid c1 "after object key")
                end
            end
          else Failed (invalid c "looking for beginning of object key string")
      end
  end
with parse_items (fuel : nat) (first : bool) (s : string) (acc : list json)
  : parsed json :=
  match fuel with
  | O => Failed (Err "exceeded max depth")
  | S fuel' =>
      match skip_space s with
      | EmptyString => Failed unexpected_EOF
      | String c s' =>
          if first && Nat.eqb (nat_of_ascii c) 93 then Parsed (JArr acc) s'
          else
            match parse_value fuel' (String c s') with
            | Failed err => Failed err
            | Parsed v r1 =>
                match skip_space r1 with
                | EmptyString => Failed unexpected_EOF
                | String c1 r2 =>
                    if Nat.eqb (nat_of_ascii c1) 44
                    then parse_items fuel' false r2 (acc ++ [v])
                    else if Nat.eqb (nat_of_ascii c1) 93
                    then Parsed (JArr (acc ++ [v])) r2
                    else Failed (invalid c1 "after array element")
                end
            end
      end
  end.

(** The first JSON value of [body] and what follows it. *)
Definition first_value (body : string) : parsed json :=
  parse_value (2 + String.length body) body.

Definition type_error (kind : string) : error :=
  Err ("json: cannot unmarshal " ++ kind
       ++ " into Go value of type map[string]interface {}")%string.

Definition decode (body : string) : GoMap json * option error :=
  match skip_space body with
  | EmptyString => (nilmap, Some (Err "EOF"))
  | _ =>
      match first_value body with
      | Failed err => (nilmap, Some err)
      | Parsed (JObj fields) _ => (mkmap fields, None)
      | Parsed JNull _ => (nilmap, None)
      | Parsed (JBool _) _ => (nilmap, Some (type_error "bool"))
      | Parsed (JNum _) _ => (nilmap, Some (type_error "number"))
      | Parsed (JStr _) _ => (nilmap, Some (type_error "string"))
      | Parsed (JArr _) _ => (nilmap, Some (type_error "array"))
      end
  end.

(** The whole body is one JSON object, as [json.Valid] with an object
    at the top would have it: nothing but white space after it. *)
Definition is_object_document (body : string) : bool :=
  match first_value body with
  | Parsed (JObj _) rest => String.eqb (skip_space rest) EmptyString
  | _ => false
  end.

(** *** URLs *)

Definition after (n : nat) (s : string) : string :=
  substring n (String.length s - n) s.

Definition has_control_byte (s : string) : bool :=
  existsb (fun c => Nat.ltb (nat_of_ascii c) 32 || Nat.eqb (nat_of_ascii c) 127)
          (list_ascii_of_string s).

Definition parse (url : string) : URL + error :=
  if has_control_byte url
  then inr (Err ("parse " ++ go_quote url
                 ++ ": net/url: invalid control character in URL")%string)
  else
    match String.index 0 "://" url with
    | Some i =>
        let rest := after (i + 3) url in
        let j := default (String.length rest) (String.index 0 "/" rest) in
        inl {| Scheme := substring 0 i url; Host := substring 0 j rest;
               Path := after j rest; RawQuery := ""; Fragment := "" |}
    | None =>
        inl {| Scheme := ""; Host := ""; Path := url; RawQuery := "";
               Fragment := "" |}
    end.

Definition parse_query (q : string) : gmap string (list string) := ∅.

Global Instance runtime : Runtime := {|
    Value := value;
    ToString := to_string;
    JSONValue := json;
    json_Marshal := marshal;
    json_Decode := decode;
    url_Parse := parse;
    url_ParseQuery := parse_query;
    url_QueryEscape := fun s => s;
    strconv_Quote := go_quote
  |}.

  (** A server that answers every request with the same response. *)
Definition answering (r : Response + error) : World :=
    {| next_handle := 0; log_lines := []; sent := []; network := fun _ _ _ => r |}.

Definition ok_body : string := ("{" ++ quote "ok" ++ ":true}")%string.

Definition response (code : Z) (body : string) : Response :=
    {| StatusCode := code; RespHeader := ∅; RespBody := body |}.

Definition api_client : Client :=
    {| client := None; endpoint := "https://cloud.appwrite.io/v1";
       headers := mkmap [("X-Appwrite-Project", "p1")]; selfSigned := false |}.
End Sample.

(** * The vocabulary of the properties *)

(** The handle a client has, or the one its first call will make. *)
Definition handle_of (clt : Client) (w : World) : Handle :=
  match client clt with
  | Some h => h
  | None => next_handle w
  end.

(** The client after [ensureClientInitialized]. *)
Definition initialized (clt : Client) (w : World) : Client :=
  {| client := Some (handle_of clt w); endpoint := endpoint clt;
     headers := headers clt; selfSigned := selfSigned clt |}.

(** [req] is the request this call handed to the transport. *)
Definition outbound (w w' : World) (req : Request) : Prop :=
  exists h, sent w' = sent w ++ [(h, req)].

(** The entry [(k, v)] is the only one of its layer under the canonical
    name of [k]. *)
Definition sole_entry {V} (k : string) (v : V) (l : list (string * V)) : Prop :=
  forall e, e ∈ l ->
    CanonicalMIMEHeaderKey e.1 = CanonicalMIMEHeaderKey k -> e = (k, v).

(** No key of the layer has the canonical name of [k]. *)
Definition no_name {V} (k : string) (l : list (string * V)) : Prop :=
  forall e, e ∈ l ->
    CanonicalMIMEHeaderKey e.1 <> CanonicalMIMEHeaderKey k.

(** The same world, with every status code the network answers
    replaced by [code]. *)
Definition with_status (code : Response -> Z) (w : World) : World :=
  {| next_handle := next_handle w; log_lines := log_lines w; sent := sent w;
     network := fun tr h req =>
       match network w tr h req with
       | inl response => inl (Response_with_StatusCode response (code response))
       | inr err => inr err
       end |}.

Section Vocabulary.
Context `{Runtime}.

Definition CallFn : Type :=
  Client -> string -> string -> GoMap Value -> GoMap Value ->
  M ((GoMap JSONValue * option error) * Client).

(** [Call] returns, and changes nothing of the client but a nil
    transport handle. *)
Definition frame (call : CallFn) : Prop :=
  forall clt method path customHeaders params w,
  exists res clt' w',
    call clt method path customHeaders params w = (Return (res, clt'), w')
    /\ endpoint clt' = endpoint clt
    /\ headers clt' = headers clt
    /\ selfSigned clt' = selfSigned clt
    /\ client clt' = Some (handle_of clt w)
    /\ (client clt = None <-> next_handle w' = S (next_handle w))
    /\ (is_Some (client clt) <-> next_handle w' = next_handle w).

(** What one [Call] does to the world around the client. *)
Definition uses_own_handle (call : CallFn) : Prop :=
  forall clt method path customHeaders params w,
  exists res clt' w' new,
    call clt method path customHeaders params w = (Return (res, clt'), w')
    /\ client clt' = Some (handle_of clt w)
    /\ sent w' = sent w ++ new
    /\ Forall (fun hr => hr.1 = handle_of clt w) new
    /\ next_handle w' =
         (if client clt is Some _ then next_handle w else S (next_handle w)).

(** Over a whole sequence of operations on one client: the handle is
    made at most once, every request goes through that handle, and a
    client that has a handle keeps it. *)
Definition one_handle (run : Client -> list Op -> M Client) : Prop :=
  forall clt ops w,
  exists new,
    sent (run clt ops w).2 = sent w ++ new
    /\ Forall (fun hr => hr.1 = handle_of clt w) new
    /\ next_handle w <= next_handle (run clt ops w).2 <= S (next_handle w)
    /\ (is_Some (client clt) ->
        next_handle (run clt ops w).2 = next_handle w)
    /\ forall clt',
        (run clt ops w).1 = Return clt' ->
        (client clt' = client clt /\
         next_handle (run clt ops w).2 = next_handle w)
        \/ (client clt = None /\ client clt' = Some (next_handle w) /\
            next_handle (run clt ops w).2 = S (next_handle w)).

(** One [key=value] component of an encoded query. *)
Definition query_pair (key value : string) : string :=
  (url_QueryEscape key ++ "=" ++ url_QueryEscape value)%string.

(** The reader [Call] passes to [http.NewRequest]. *)
Definition reqBody_of (method : string) (params : GoMap Value)
  : option Bytes :=
  if String.eqb (ToUpper method) "GET" then None
  else match json_Marshal params with
       | inl jsonData => Some jsonData
       | inr _ => None
       end.

(** The lines [prepareRequestBody] logs; the two files differ in the
    [prefix]. *)
Definition logged_of (prefix method : string) (params : GoMap Value)
  : list string :=
  if String.eqb (ToUpper method) "GET" then []
  else match json_Marshal params with
       | inl jsonData => [(prefix ++ jsonData)%string]
       | inr _ => []
       end.

(** The request after the header layers and the method-dependent step;
    [forced] tells whether the file sets [Content-Type] itself. *)
Definition finished (forced : bool) (clt : Client) (method : string)
    (customHeaders params : GoMap Value) (r : Request) : Request :=
  let r := setHeaders r (headers clt) customHeaders in
  if String.eqb (ToUpper method) "GET" then updateQueryParameters r params
  else if forced then Request_Header_Set r "Content-Type" "application/json"
  else r.

(** What [Call] returns once the transport has answered. *)
Definition result_of (r : Response + error) : GoMap JSONValue * option error :=
  match r with
  | inr err => (nilmap, Some err)
  | inl response => parseJSONResponse response
  end.

(** One run of [Call] written out as a function of the client, the
    arguments and the world. *)
Definition call_run (prefix : string) (forced : bool) (clt : Client)
    (method path : string) (customHeaders params : GoMap Value) (w : World)
  : Outcome ((GoMap JSONValue * option error) * Client) * World :=
  let h := handle_of clt w in
  let n := if client clt is Some _ then next_handle w else S (next_handle w) in
  let logs := log_lines w ++ logged_of prefix method params in
  match http_NewRequest method (endpoint clt ++ path)%string
          (reqBody_of method params) with
  | inr err =>
      (Return ((nilmap, Some err), initialized clt w),
       {| next_handle := n; log_lines := logs; sent := sent w;
          network := network w |})
  | inl r =>
      let req := finished forced clt method customHeaders params r in
      (Return (result_of (network w (sent w) h req), initialized clt w),
       {| next_handle := n; log_lines := logs; sent := sent w ++ [(h, req)];
          network := network w |})
  end.

End Vocabulary.

(** ** Further vocabulary: layers, names, spellings *)

(** The canonical names under which the keys of a layer are set. *)
Definition canonical_names {V} (l : list (string * V)) : gset string :=
  list_to_set (CanonicalMIMEHeaderKey <$> l.*1).

(** The value of the last entry of [l] whose canonical name is [name]. *)
Definition last_named (name : string) (l : list (string * string))
  : option string :=
  snd <$> last (filter (fun e => CanonicalMIMEHeaderKey e.1 = name) l).

(** The spellings of a method that [Call] treats as GET. *)
Definition GET_spellings : list string :=
  ["GET"; "GEt"; "GeT"; "Get"; "gET"; "gEt"; "geT"; "get"].

(** The four setters of well-known headers, with the names they set. *)
Definition well_known_setters : list (string * (Client -> string -> Outcome Client)) :=
  [("X-Appwrite-Project", SetProject); ("X-Appwrite-Key", SetKey);
   ("X-Appwrite-Locale", SetLocale); ("X-Appwrite-Mode", SetMode)].

Definition with_selfSigned (clt : Client) (status : bool) : Client :=
  {| client := client clt; endpoint := endpoint clt;
     headers := headers clt; selfSigned := status |}.

Definition Outcome_map {A B} (f : A -> B) (o : Outcome A) : Outcome B :=
  match o with
  | Return a => Return (f a)
  | Panic msg => Panic msg
  end.

Section FurtherVocabulary.
Context `{Runtime}.

(** The entries the two layers set, in the order [setHeaders] visits
    them, custom values as strings. *)
Definition layers (clientHeaders : GoMap string) (customHeaders : GoMap Value)
  : list (string * string) :=
  range clientHeaders ++ (prod_map id ToString <$> range customHeaders).

(** An operation other than [Call]. *)
Definition is_setter (op : Op) : bool :=
  match op with
  | OpCall _ _ _ _ => false
  | _ => true
  end.

End FurtherVocabulary.

(** * Proofs *)

Ltac unfold_M :=
  unfold mbind, M_bind, mret, M_ret, panic, lift, new_http_Client,
    log_Println, http_Client_Do in *.

(** Case analysis along one run of [Call], in program order. *)
Ltac call_cases :=
  simpl;
  repeat match goal with
         | E : client ?c = _ |- context [client ?c] => rewrite E; simpl
         end;
  try match goal with
      | |- context [String.eqb (ToUpper ?m) "GET"] =>
          destruct (String.eqb (ToUpper m) "GET") eqn:?; simpl
      end;
  try match goal with
      | |- context [json_Marshal ?p] => destruct (json_Marshal p) eqn:?; simpl
      end;
  try match goal with
      | |- context [http_NewRequest ?m ?u ?b] =>
          destruct (http_NewRequest m u b) eqn:?; simpl
      end;
  try match goal with
      | |- context [network ?w ?t ?h ?r] =>
          destruct (network w t h r) eqn:?; simpl
      end;
  try match goal with
      | |- context [parseJSONResponse ?r] =>
          let o := fresh "o" in
          destruct (parseJSONResponse r) as [? o] eqn:?; destruct o; simpl
      end.

Lemma outbound_inj w w' h req req' :
  sent w' = sent w ++ [(h, req)] -> outbound w w' req' -> req' = req.
Proof.
  intros E [h' E']. rewrite E in E'.
  apply app_inv_head in E'. congruence.
Qed.

Lemma outbound_none w w' req : sent w' = sent w -> ~ outbound w w' req.
Proof.
  intros E [h E']. rewrite E in E'.
  rewrite <- (app_nil_r (sent w)) in E' at 1.
  apply app_inv_head in E'. discriminate.
Qed.

Section CallRun.
Context `{Runtime}.

Lemma parseJSONResponse_error response m err :
  parseJSONResponse response = (m, Some err) -> m = nilmap.
Proof.
  unfold parseJSONResponse.
  destruct (json_Decode (RespBody response)) as [m' [e|]]; congruence.
Qed.

Lemma http_NewRequest_inl method url body r :
  http_NewRequest method url body = inl r ->
  ReqBody r = body /\ ReqHeader r = ∅.
Proof.
  unfold http_NewRequest.
  destruct (negb _); [discriminate|].
  destruct (url_Parse url); [|discriminate].
  intros [= <-]. split; reflexivity.
Qed.

(** [src/client.go]: [Call] is [call_run] with no log prefix and the
    forced header. *)
Lemma ClientGo_Call_run clt method path customHeaders params w :
  ClientGo.Call clt method path customHeaders params w
  = call_run "" true clt method path customHeaders params w.
Proof.
  unfold ClientGo.Call, ClientGo.prepareRequestBody, ensureClientInitialized,
    call_run, reqBody_of, logged_of, finished, result_of, initialized, handle_of.
  unfold_M.
  destruct clt as [[h|] ep hs ss]; call_cases;
    destruct w as [n lg st nw]; simpl in *; rewrite ?app_nil_r;
    try (erewrite (parseJSONResponse_error _ _ _ ltac:(eassumption)));
    reflexivity.
Qed.

(** [src/unnamed/part_000]: the prefix ["JSON Data: "], no forced
    header. *)
Lemma Part000_Call_run clt method path customHeaders params w :
  Part000.Call clt method path customHeaders params w
  = call_run "JSON Data: " false clt method path customHeaders params w.
Proof.
  unfold Part000.Call, Part000.prepareRequestBody, ensureClientInitialized,
    call_run, reqBody_of, logged_of, finished, result_of, initialized, handle_of.
  unfold_M.
  destruct clt as [[h|] ep hs ss]; call_cases;
    destruct w as [n lg st nw]; simpl in *; rewrite ?app_nil_r;
    try (erewrite (parseJSONResponse_error _ _ _ ltac:(eassumption)));
    reflexivity.
Qed.
End CallRun.

Section Frame.
Context `{Runtime}.

Lemma call_run_frame prefix forced : frame (call_run prefix forced).
Proof.
  intros clt method path customHeaders params w. unfold call_run.
  destruct (http_NewRequest _ _ _); eexists _, _, _;
    (split; [reflexivity|]); simpl;
    (do 4 (split; [reflexivity|]));
    destruct (client clt); split; split; intros; try done; try lia; eauto.
Qed.

Lemma call_run_uses_own_handle prefix forced :
  uses_own_handle (call_run prefix forced).
Proof.
  intros clt method path customHeaders params w. unfold call_run.
  destruct (http_NewRequest _ _ _); eexists _, _, _, _;
    (split; [reflexivity|]); simpl; (split; [reflexivity|]);
    (split; [first [reflexivity | symmetry; apply app_nil_r]|]);
    (split; [|reflexivity]); repeat constructor.
Qed.

Lemma frame_ext (f g : CallFn) :
  (forall clt method path customHeaders params w,
      f clt method path customHeaders params w
      = g clt method path customHeaders params w) ->
  frame g -> frame f.
Proof.
  intros E Hg clt method path customHeaders params w. rewrite E. apply Hg.
Qed.

Lemma uses_own_handle_ext (f g : CallFn) :
  (forall clt method path customHeaders params w,
      f clt method path customHeaders params w
      = g clt method path customHeaders params w) ->
  uses_own_handle g -> uses_own_handle f.
Proof.
  intros E Hg clt method path customHeaders params w. rewrite E. apply Hg.
Qed.

Lemma uses_own_handle_ClientGo : uses_own_handle ClientGo.Call.
Proof.
  eapply uses_own_handle_ext;
    [apply ClientGo_Call_run | apply call_run_uses_own_handle].
Qed.

Lemma uses_own_handle_Part000 : uses_own_handle Part000.Call.
Proof.
  eapply uses_own_handle_ext;
    [apply Part000_Call_run | apply call_run_uses_own_handle].
Qed.
End Frame.

Section Run.
Context `{Runtime}.
Variable call : CallFn.
Hypothesis call_ok : uses_own_handle call.

(** A setter leaves the handle and the world alone. *)
Lemma with_headers_client clt o clt' :
  with_headers clt o = Return clt' -> client clt' = client clt.
Proof. destruct o; simpl; intros [= <-]; reflexivity. Qed.

Lemma exec_with_step clt op w :
  exists new,
    sent (exec_with call clt op w).2 = sent w ++ new
    /\ Forall (fun hr => hr.1 = handle_of clt w) new
    /\ ((exec_with call clt op w).2 = w
        /\ (forall clt', (exec_with call clt op w).1 = Return clt' ->
                         client clt' = client clt)
        \/ exists clt',
            (exec_with call clt op w).1 = Return clt'
            /\ client clt' = Some (handle_of clt w)
            /\ next_handle (exec_with call clt op w).2 =
                 (if client clt is Some _ then next_handle w
                  else S (next_handle w))).
Proof.
  destruct op; simpl;
    try (exists []; rewrite app_nil_r; split; [reflexivity|];
         split; [constructor|]; left; split; [reflexivity|];
         unfold lift, SetEndpoint, SetSelfSigned, AddHeader, SetProject,
           SetKey, SetLocale, SetMode; simpl;
         intros clt' E;
         first [ by injection E as <- | by eapply with_headers_client ]).
  pose proof (call_ok clt method path customHeaders params w) as Hcall.
  destruct Hcall as (res & clt2 & w2 & new & E & Hc & Hs & Hall & Hn).
  exists new. unfold_M. rewrite E. simpl. repeat split; try assumption.
  right. exists clt2. repeat split; assumption.
Qed.

Lemma run_with_one_handle : one_handle (run_with call).
Proof.
  intros clt ops. revert clt.
  induction ops as [|op ops IH]; intros clt w.
  - exists []. simpl. unfold_M. simpl. rewrite app_nil_r.
    split; [reflexivity|]. split; [constructor|].
    split; [lia|]. split; [reflexivity|].
    intros clt' [= <-]. left. split; reflexivity.
  - simpl. unfold mbind, M_bind.
    destruct (exec_with_step clt op w) as (new1 & Hs1 & Hall1 & Hstep).
    destruct (exec_with call clt op w) as [[clt1|msg] w1] eqn:E1;
      simpl in *.
    + destruct (IH clt1 w1) as (new2 & Hs2 & Hall2 & Hn2 & Hk2 & Hc2).
      exists (new1 ++ new2). rewrite Hs2, Hs1, app_assoc.
      split; [reflexivity|].
      destruct Hstep as [[-> Hsame] | (clt1' & [= <-] & Hc1 & Hn1)].
      * specialize (Hsame clt1 eq_refl).
        assert (handle_of clt1 w = handle_of clt w) as Hh
            by (unfold handle_of; rewrite Hsame; reflexivity).
        rewrite Hh in Hall2. rewrite <- Hsame.
        repeat split; try assumption; try lia.
        apply Forall_app; split; assumption.
      * assert (handle_of clt1 w1 = handle_of clt w) as Hh
            by (unfold handle_of at 1; rewrite Hc1; reflexivity).
        rewrite Hh in Hall2.
        assert (next_handle (run_with call clt1 ops w1).2 = next_handle w1)
          as Hfix by (apply Hk2; rewrite Hc1; eauto).
        split; [apply Forall_app; split; assumption|].
        unfold handle_of in Hc1.
        destruct (client clt) as [h|] eqn:Ec.
        -- repeat split; try lia.
           intros clt' Hr. left. split; [|lia].
           destruct (Hc2 clt' Hr) as [[-> _] | (Hnone & _)];
             congruence.
        -- repeat split; try lia.
           ++ intros [? ?]; discriminate.
           ++ intros clt' Hr. right. split; [reflexivity|].
              split; [|lia].
              destruct (Hc2 clt' Hr) as [[-> _] | (Hnone & _)];
                congruence.
    + exists new1.
      destruct Hstep as [[-> _] | (clt1' & Hr & _)]; [|discriminate].
      split; [assumption|]. split; [assumption|].
      split; [lia|]. split; [reflexivity|]. discriminate.
Qed.
End Run.

(** ** Header layers *)

Section Layers.
Context {V : Type} (g : V -> string).

Local Abbreviation set_all r l :=
  (foldl (fun r' kv => Request_Header_Set r' kv.1 (g kv.2)) r l).

Lemma set_all_rest r l :
  Method (set_all r l) = Method r
  /\ ReqURL (set_all r l) = ReqURL r
  /\ ReqBody (set_all r l) = ReqBody r.
Proof.
  revert r. induction l as [|e l IH]; intros r; simpl; [done|].
  destruct (IH (Request_Header_Set r e.1 (g e.2))) as (-> & -> & ->). done.
Qed.

Lemma set_all_other r l c :
  (forall e, e ∈ l -> CanonicalMIMEHeaderKey e.1 <> c) ->
  ReqHeader (set_all r l) !! c = ReqHeader r !! c.
Proof.
  revert r. induction l as [|e l IH]; intros r Hl; simpl; [done|].
  rewrite IH.
  - simpl. unfold Header_Set. apply lookup_insert_ne.
    apply Hl. apply list_elem_of_here.
  - intros e' He'. apply Hl. by apply list_elem_of_further.
Qed.

Lemma set_all_keep r l c x :
  ReqHeader r !! c = Some [x] ->
  (forall e, e ∈ l -> CanonicalMIMEHeaderKey e.1 = c -> g e.2 = x) ->
  ReqHeader (set_all r l) !! c = Some [x].
Proof.
  revert r. induction l as [|e l IH]; intros r Hr Hl; simpl; [done|].
  apply IH.
  - simpl. unfold Header_Set.
    destruct (decide (CanonicalMIMEHeaderKey e.1 = c)) as [E|E].
    + rewrite <- E, lookup_insert_eq.
      by rewrite (Hl e (list_elem_of_here _ _) E).
    + by rewrite lookup_insert_ne.
  - intros e' He'. apply Hl. by apply list_elem_of_further.
Qed.

Lemma set_all_sole r l k v :
  (k, v) ∈ l -> sole_entry k v l ->
  ReqHeader (set_all r l) !! CanonicalMIMEHeaderKey k = Some [g v].
Proof.
  revert r. induction l as [|e l IH]; intros r Hin Hsole.
  - by apply elem_of_nil in Hin.
  - simpl. apply elem_of_cons in Hin as [<- | Hin].
    + apply set_all_keep.
      * simpl. unfold Header_Set. apply lookup_insert_eq.
      * intros e' He' Ec.
        by rewrite (Hsole e' (list_elem_of_further _ _ _ He') Ec).
    + apply IH; [assumption|].
      intros e' He'. apply Hsole. by apply list_elem_of_further.
Qed.
End Layers.

Section Headers.
Context `{Runtime}.

Lemma setHeaders_rest r clientHeaders customHeaders :
  Method (setHeaders r clientHeaders customHeaders) = Method r
  /\ ReqURL (setHeaders r clientHeaders customHeaders) = ReqURL r
  /\ ReqBody (setHeaders r clientHeaders customHeaders) = ReqBody r.
Proof.
  unfold setHeaders.
  destruct (set_all_rest ToString
              (foldl (fun r kv => Request_Header_Set r kv.1 kv.2) r
                     (range clientHeaders)) (range customHeaders))
    as (-> & -> & ->).
  apply (set_all_rest (fun v : string => v)).
Qed.

(** The custom layer wins: whatever the defaults hold. *)
Lemma setHeaders_custom r clientHeaders customHeaders k v :
  (k, v) ∈ range customHeaders ->
  sole_entry k v (range customHeaders) ->
  Header_Values (ReqHeader (setHeaders r clientHeaders customHeaders)) k
  = [ToString v].
Proof.
  intros Hin Hsole. unfold Header_Values, setHeaders.
  by rewrite (set_all_sole ToString _ _ k v Hin Hsole).
Qed.

(** A default header that no custom header names stays. *)
Lemma setHeaders_default r clientHeaders customHeaders k v :
  (k, v) ∈ range clientHeaders ->
  sole_entry k v (range clientHeaders) ->
  no_name k (range customHeaders) ->
  Header_Values (ReqHeader (setHeaders r clientHeaders customHeaders)) k = [v].
Proof.
  intros Hin Hsole Hno. unfold Header_Values, setHeaders.
  rewrite (set_all_other ToString); [|exact Hno].
  by rewrite (set_all_sole (fun v : string => v) _ _ k v Hin Hsole).
Qed.

Lemma updateQueryParameters_rest r params :
  Method (updateQueryParameters r params) = Method r
  /\ ReqHeader (updateQueryParameters r params) = ReqHeader r
  /\ ReqBody (updateQueryParameters r params) = ReqBody r.
Proof. done. Qed.

Lemma Header_Values_Set h k value :
  Header_Values (Header_Set h k value) k = [value].
Proof. unfold Header_Values, Header_Set. by rewrite lookup_insert_eq. Qed.

Lemma Header_Values_Set_ne h k k' value :
  CanonicalMIMEHeaderKey k' <> CanonicalMIMEHeaderKey k ->
  Header_Values (Header_Set h k' value) k = Header_Values h k.
Proof.
  intros. unfold Header_Values, Header_Set. by rewrite lookup_insert_ne.
Qed.
End Headers.

(** ** Query parameters *)

Section Query.
Context `{Runtime}.

Lemma Values_Add_mono q key value k x :
  x ∈ default [] (q !! k) -> x ∈ default [] (Values_Add q key value !! k).
Proof.
  intros Hx. unfold Values_Add.
  destruct (decide (key = k)) as [->|Hne].
  - rewrite lookup_insert_eq. simpl. apply elem_of_app. by left.
  - by rewrite lookup_insert_ne.
Qed.

Lemma Values_Add_new q key value :
  value ∈ default [] (Values_Add q key value !! key).
Proof.
  unfold Values_Add. rewrite lookup_insert_eq. simpl.
  apply elem_of_app. right. apply list_elem_of_here.
Qed.

Lemma fold_Add_mono (l : list (string * Value)) q k x :
  x ∈ default [] (q !! k) ->
  x ∈ default [] (foldl (fun q kv => Values_Add q kv.1 (ToString kv.2)) q l !! k).
Proof.
  revert q. induction l as [|e l IH]; intros q Hx; simpl; [done|].
  apply IH. by apply Values_Add_mono.
Qed.

Lemma fold_Add_in (l : list (string * Value)) q k v :
  (k, v) ∈ l ->
  ToString v ∈
    default [] (foldl (fun q kv => Values_Add q kv.1 (ToString kv.2)) q l !! k).
Proof.
  revert q. induction l as [|e l IH]; intros q Hin.
  - by apply elem_of_nil in Hin.
  - simpl. apply elem_of_cons in Hin as [<- | Hin].
    + apply fold_Add_mono. apply Values_Add_new.
    + by apply IH.
Qed.

Lemma Values_pairs_in (q : gmap string (list string)) k x :
  x ∈ default [] (q !! k) -> query_pair k x ∈ Values_pairs q.
Proof.
  intros Hx. destruct (q !! k) as [vs|] eqn:E; simpl in Hx;
    [|by apply elem_of_nil in Hx].
  unfold Values_pairs. apply list_elem_of_In, in_flat_map.
  exists (k, vs). split.
  - apply list_elem_of_In. rewrite merge_sort_Permutation.
    by apply elem_of_map_to_list.
  - simpl. apply in_map_iff. exists x. split; [reflexivity|].
    by apply list_elem_of_In.
Qed.

(** Every entry of [params] is a component of the new query string. *)
Lemma updateQueryParameters_pairs r params k v :
  (k, v) ∈ range params ->
  exists comps,
    RawQuery (ReqURL (updateQueryParameters r params)) = String.concat "&" comps
    /\ query_pair k (ToString v) ∈ comps.
Proof.
  intros Hin. unfold updateQueryParameters. simpl.
  eexists. split; [reflexivity|].
  apply Values_pairs_in. by apply fold_Add_in.
Qed.
End Query.

(** * The claims *)

Section Claims.
Context `{Runtime}.

(** C9: on a client whose default-header map is nil (as in the zero
    value [Client{}]; nothing in these files makes the map), each of
    [AddHeader], [SetProject], [SetKey], [SetLocale] and [SetMode]
    panics with Go's nil-map assignment error and records nothing. *)
Theorem C9_setters_panic_on_nil_headers (clt : Client) (key value : string) :
  headers clt = nilmap ->
  AddHeader clt key value = Panic "assignment to entry in nil map"
  /\ SetProject clt value = Panic "assignment to entry in nil map"
  /\ SetKey clt value = Panic "assignment to entry in nil map"
  /\ SetLocale clt value = Panic "assignment to entry in nil map"
  /\ SetMode clt value = Panic "assignment to entry in nil map".
Proof.
  intros E. unfold AddHeader, SetProject, SetKey, SetLocale, SetMode.
  rewrite E. simpl. repeat split.
Qed.

(** C10: in both files [Call] returns (it does not panic) with the
    client's [endpoint], [headers] and [selfSigned] as they were; the
    transport handle is the one the client had, or a fresh one when it
    had none, and a handle is allocated exactly in that second case. *)
Theorem C10_Call_frame : frame ClientGo.Call /\ frame Part000.Call.
Proof.
  split.
  - eapply frame_ext; [apply ClientGo_Call_run | apply call_run_frame].
  - eapply frame_ext; [apply Part000_Call_run | apply call_run_frame].
Qed.

(** C7: in both files a [Call] on a client without a handle makes one
    and a [Call] on a client with a handle makes none; over any
    sequence of setters and calls on one client at most one handle is
    made, every request of the sequence goes through the same handle,
    and the client's handle, once set, stays. *)
Theorem C7_one_transport_handle :
  (uses_own_handle ClientGo.Call /\ one_handle ClientGo.run)
  /\ (uses_own_handle Part000.Call /\ one_handle Part000.run).
Proof.
  split; split.
  - apply uses_own_handle_ClientGo.
  - apply run_with_one_handle, uses_own_handle_ClientGo.
  - apply uses_own_handle_Part000.
  - apply run_with_one_handle, uses_own_handle_Part000.
Qed.

Lemma result_of_with_status code w tr h req :
  result_of (network (with_status code w) tr h req)
  = result_of (network w tr h req).
Proof. simpl. destruct (network w tr h req); reflexivity. Qed.

Lemma call_run_with_status prefix forced code clt method path
    customHeaders params w :
  (call_run prefix forced clt method path customHeaders params
     (with_status code w)).1
  = (call_run prefix forced clt method path customHeaders params w).1.
Proof.
  unfold call_run.
  change (handle_of clt (with_status code w)) with (handle_of clt w).
  change (initialized clt (with_status code w)) with (initialized clt w).
  change (sent (with_status code w)) with (sent w).
  destruct (http_NewRequest _ _ _); simpl; [|reflexivity].
  destruct (network w _ _ _); reflexivity.
Qed.

Lemma call_run_answer prefix forced clt method path customHeaders params w
    req :
  outbound w
    (call_run prefix forced clt method path customHeaders params w).2 req ->
  (call_run prefix forced clt method path customHeaders params w).1
  = Return (result_of (network w (sent w) (handle_of clt w) req),
            initialized clt w).
Proof.
  unfold call_run. destruct (http_NewRequest _ _ _); simpl; intros Hout.
  - destruct Hout as [h E]. simpl in E.
    apply app_inv_head in E. by injection E as _ ->.
  - by apply outbound_none in Hout.
Qed.

(** C5: in both files the value [Call] returns is the same whatever
    status codes the server answers with; and when the round trip gives
    a response whose body decodes without error, [Call] returns the
    decoded map and no error, whatever the status code of that
    response. *)
Theorem C5_status_code_is_ignored (clt : Client) (method path : string)
    (customHeaders params : GoMap Value) (w : World) :
  (forall code,
      (ClientGo.Call clt method path customHeaders params (with_status code w)).1
      = (ClientGo.Call clt method path customHeaders params w).1
      /\ (Part000.Call clt method path customHeaders params (with_status code w)).1
         = (Part000.Call clt method path customHeaders params w).1)
  /\ (forall req response m,
         network w (sent w) (handle_of clt w) req = inl response ->
         json_Decode (RespBody response) = (m, None) ->
         (outbound w (ClientGo.Call clt method path customHeaders params w).2 req ->
          (ClientGo.Call clt method path customHeaders params w).1
          = Return ((m, None), initialized clt w))
         /\ (outbound w (Part000.Call clt method path customHeaders params w).2 req ->
             (Part000.Call clt method path customHeaders params w).1
             = Return ((m, None), initialized clt w))).
Proof.
  split.
  - intros code. rewrite !ClientGo_Call_run, !Part000_Call_run.
    split; apply call_run_with_status.
  - intros req response m Hnet Hdec.
    rewrite ClientGo_Call_run, Part000_Call_run.
    split; intros Hout; rewrite (call_run_answer _ _ _ _ _ _ _ _ _ Hout), Hnet;
      simpl; unfold parseJSONResponse; by rewrite Hdec.
Qed.

(** C6, amended: in both files, when [json.Decoder.Decode] reports an
    error on the body of the response to the request of a [Call] (it
    reads the first JSON value of the body and no further), [Call]
    returns that error together with a nil map, whatever the decoder
    had put in the map before failing. *)
Theorem C6_decode_error_is_returned (clt : Client) (method path : string)
    (customHeaders params : GoMap Value) (w : World)
    (req : Request) (response : Response) (m : GoMap JSONValue) (err : error) :
  network w (sent w) (handle_of clt w) req = inl response ->
  json_Decode (RespBody response) = (m, Some err) ->
  (outbound w (ClientGo.Call clt method path customHeaders params w).2 req ->
   (ClientGo.Call clt method path customHeaders params w).1
   = Return ((nilmap, Some err), initialized clt w))
  /\ (outbound w (Part000.Call clt method path customHeaders params w).2 req ->
      (Part000.Call clt method path customHeaders params w).1
      = Return ((nilmap, Some err), initialized clt w)).
Proof.
  intros Hnet Hdec. rewrite ClientGo_Call_run, Part000_Call_run.
  split; intros Hout; rewrite (call_run_answer _ _ _ _ _ _ _ _ _ Hout), Hnet;
    simpl; unfold parseJSONResponse; by rewrite Hdec.
Qed.
End Claims.

Section Requests.
Context `{Runtime}.

Lemma call_run_outbound prefix forced clt method path customHeaders params w
    req :
  outbound w
    (call_run prefix forced clt method path customHeaders params w).2 req ->
  exists r,
    http_NewRequest method (endpoint clt ++ path)%string
      (reqBody_of method params) = inl r
    /\ req = finished forced clt method customHeaders params r.
Proof.
  unfold call_run.
  destruct (http_NewRequest _ _ _) as [r|err]; simpl; intros Hout.
  - exists r. split; [reflexivity|].
    destruct Hout as [h E]. simpl in E.
    apply app_inv_head in E. by injection E as _ ->.
  - by apply outbound_none in Hout.
Qed.

Lemma call_run_sends prefix forced clt method path customHeaders params w r :
  http_NewRequest method (endpoint clt ++ path)%string
    (reqBody_of method params) = inl r ->
  outbound w
    (call_run prefix forced clt method path customHeaders params w).2
    (finished forced clt method customHeaders params r).
Proof. intros E. unfold call_run. rewrite E. by eexists. Qed.

Lemma finished_body forced clt method customHeaders params r :
  ReqBody (finished forced clt method customHeaders params r) = ReqBody r.
Proof.
  unfold finished. destruct (setHeaders_rest r (headers clt) customHeaders)
    as (_ & _ & E).
  destruct (String.eqb _ _); [|destruct forced]; simpl; exact E.
Qed.

Lemma not_GET method :
  ToUpper method <> "GET" -> String.eqb (ToUpper method) "GET" = false.
Proof. intros. by apply String.eqb_neq. Qed.

Lemma is_GET method :
  ToUpper method = "GET" -> String.eqb (ToUpper method) "GET" = true.
Proof. intros. by apply String.eqb_eq. Qed.

(** C2: when the method is not GET in any letter case, the request
    that [Call] hands to the transport carries as its body the JSON
    encoding of [params] (in both files), and in [src/client.go] its
    [Content-Type] is the single value [application/json], whatever
    the two header layers held and whatever [params] is; such a request
    is sent whenever [http.NewRequest] accepts the method and URL. *)
Theorem C2_non_GET_request (clt : Client) (method path : string)
    (customHeaders params : GoMap Value) (w : World) :
  ToUpper method <> "GET" ->
  (forall req,
      outbound w (ClientGo.Call clt method path customHeaders params w).2 req ->
      Header_Values (ReqHeader req) "Content-Type" = ["application/json"]
      /\ Header_Get (ReqHeader req) "Content-Type" = "application/json")
  /\ (forall jsonData,
         json_Marshal params = inl jsonData ->
         (forall req,
             outbound w (ClientGo.Call clt method path customHeaders params w).2 req ->
             ReqBody req = Some jsonData)
         /\ (forall req,
                outbound w (Part000.Call clt method path customHeaders params w).2 req ->
                ReqBody req = Some jsonData)
         /\ (forall r,
                http_NewRequest method (endpoint clt ++ path)%string
                  (Some jsonData) = inl r ->
                (exists req,
                    outbound w
                      (ClientGo.Call clt method path customHeaders params w).2 req)
                /\ (exists req,
                       outbound w
                         (Part000.Call clt method path customHeaders params w).2 req))).
Proof.
  intros Hm. apply not_GET in Hm.
  rewrite ClientGo_Call_run, Part000_Call_run. split.
  - intros req Hout.
    destruct (call_run_outbound _ _ _ _ _ _ _ _ _ Hout) as (r & _ & ->).
    unfold finished. rewrite Hm. simpl. unfold Header_Get.
    by rewrite Header_Values_Set.
  - intros jsonData Hj.
    assert (reqBody_of method params = Some jsonData) as Hb
        by (unfold reqBody_of; by rewrite Hm, Hj).
    repeat split.
    + intros req Hout.
      destruct (call_run_outbound _ _ _ _ _ _ _ _ _ Hout) as (r & Hr & ->).
      rewrite finished_body, <- Hb. exact (proj1 (http_NewRequest_inl _ _ _ _ Hr)).
    + intros req Hout.
      destruct (call_run_outbound _ _ _ _ _ _ _ _ _ Hout) as (r & Hr & ->).
      rewrite finished_body, <- Hb. exact (proj1 (http_NewRequest_inl _ _ _ _ Hr)).
    + eexists. apply call_run_sends. by rewrite Hb.
    + eexists. apply call_run_sends. by rewrite Hb.
Qed.

(** C3: when the method is GET in any letter case (["get"], ["Get"] and
    ["GET"] are), the request that [Call] hands to the transport has no
    body, and for every entry [(k, v)] of [params] the pair
    [QueryEscape k = QueryEscape (ToString v)] is one of the
    [&]-separated components of its query string; this in both files,
    and such a request is sent whenever [http.NewRequest] accepts the
    method and URL. *)
Theorem C3_GET_request (clt : Client) (method path : string)
    (customHeaders params : GoMap Value) (w : World) :
  ToUpper method = "GET" ->
  (ToUpper "get" = "GET" /\ ToUpper "Get" = "GET" /\ ToUpper "GET" = "GET")
  /\ (forall req,
         outbound w (ClientGo.Call clt method path customHeaders params w).2 req
         \/ outbound w (Part000.Call clt method path customHeaders params w).2 req ->
         ReqBody req = None
         /\ forall k v,
             (k, v) ∈ range params ->
             exists comps,
               RawQuery (ReqURL req) = String.concat "&" comps
               /\ query_pair k (ToString v) ∈ comps)
  /\ (forall r,
         http_NewRequest method (endpoint clt ++ path)%string None = inl r ->
         (exists req,
             outbound w (ClientGo.Call clt method path customHeaders params w).2 req)
         /\ (exists req,
                outbound w (Part000.Call clt method path customHeaders params w).2 req)).
Proof.
  intros Hm. apply is_GET in Hm.
  assert (reqBody_of method params = None) as Hb
      by (unfold reqBody_of; by rewrite Hm).
  rewrite ClientGo_Call_run, Part000_Call_run.
  split; [repeat split|]. split.
  - intros req [Hout | Hout];
      destruct (call_run_outbound _ _ _ _ _ _ _ _ _ Hout) as (r & Hr & ->);
      (split; [rewrite finished_body, <- Hb; exact (proj1 (http_NewRequest_inl _ _ _ _ Hr))|]);
      intros k v Hin; unfold finished; rewrite Hm;
      by apply updateQueryParameters_pairs.
  - intros r Hr. split; eexists; apply call_run_sends; by rewrite Hb.
Qed.

(** C4, amended: in both files the request that [Call] hands to the
    transport has had every default header set and then every custom
    header, under the canonical form of their names.  A custom header
    that is the only custom entry of its canonical name is there with
    its value as a string, whatever the defaults held; a default header
    that is the only default entry of its canonical name and whose name
    no custom key has is there with its value.  In [src/client.go] this
    excepts [Content-Type] on a request that is not GET. *)
Theorem C4_header_layers (clt : Client) (method path : string)
    (customHeaders params : GoMap Value) (w : World) (req : Request) :
  (outbound w (ClientGo.Call clt method path customHeaders params w).2 req ->
   (forall k v,
       (k, v) ∈ range customHeaders ->
       sole_entry k v (range customHeaders) ->
       ToUpper method = "GET"
       \/ CanonicalMIMEHeaderKey "Content-Type" <> CanonicalMIMEHeaderKey k ->
       Header_Values (ReqHeader req) k = [ToString v])
   /\ (forall k v,
          (k, v) ∈ range (headers clt) ->
          sole_entry k v (range (headers clt)) ->
          no_name k (range customHeaders) ->
          ToUpper method = "GET"
          \/ CanonicalMIMEHeaderKey "Content-Type" <> CanonicalMIMEHeaderKey k ->
          Header_Values (ReqHeader req) k = [v]))
  /\ (outbound w (Part000.Call clt method path customHeaders params w).2 req ->
      (forall k v,
          (k, v) ∈ range customHeaders ->
          sole_entry k v (range customHeaders) ->
          Header_Values (ReqHeader req) k = [ToString v])
      /\ (forall k v,
             (k, v) ∈ range (headers clt) ->
             sole_entry k v (range (headers clt)) ->
             no_name k (range customHeaders) ->
             Header_Values (ReqHeader req) k = [v])).
Proof.
  rewrite ClientGo_Call_run, Part000_Call_run.
  split; intros Hout;
    destruct (call_run_outbound _ _ _ _ _ _ _ _ _ Hout) as (r & _ & ->);
    unfold finished.
  - split.
    + intros k v Hin Hsole [Hm | Hk].
      * rewrite (is_GET _ Hm). by apply setHeaders_custom.
      * destruct (String.eqb _ _); simpl;
          rewrite ?Header_Values_Set_ne by exact Hk;
          by apply setHeaders_custom.
    + intros k v Hin Hsole Hno [Hm | Hk].
      * rewrite (is_GET _ Hm). by apply setHeaders_default.
      * destruct (String.eqb _ _); simpl;
          rewrite ?Header_Values_Set_ne by exact Hk;
          by apply setHeaders_default.
  - split.
    + intros k v Hin Hsole. destruct (String.eqb _ _);
        by apply setHeaders_custom.
    + intros k v Hin Hsole Hno. destruct (String.eqb _ _);
        by apply setHeaders_default.
Qed.

End Requests.

(** * Further properties of the code *)

(** ** Recording default headers *)

Section Entries.
Context {V : Type}.
Implicit Types (l : list (string * V)) (k : string) (v : V).

Lemma entries_put_elem l k v k' v' :
  (k', v') ∈ entries_put k v l ->
  (k' = k /\ v' = v) \/ (k' <> k /\ (k', v') ∈ l) \/ (k' = k /\ (k', v') ∈ l).
Proof.
  induction l as [|[k0 v0] l IH]; simpl.
  - intros Hin%list_elem_of_singleton. injection Hin as -> ->. auto.
  - destruct (String.eqb_spec k k0) as [<- | Hne].
    + intros [E | Hin]%elem_of_cons.
      * injection E as -> ->. auto.
      * destruct (decide (k' = k)) as [-> | Hk].
        -- right. right. split; [done|]. by apply list_elem_of_further.
        -- right. left. split; [done|]. by apply list_elem_of_further.
    + intros [E | Hin]%elem_of_cons.
      * injection E as -> ->. right. left. split; [done|].
        apply list_elem_of_here.
      * destruct (IH Hin) as [? | [[? ?] | [? ?]]]; auto.
        -- right. left. split; [done|]. by apply list_elem_of_further.
        -- right. right. split; [done|]. by apply list_elem_of_further.
Qed.

Lemma entries_put_here l k v : (k, v) ∈ entries_put k v l.
Proof.
  induction l as [|[k0 v0] l IH]; simpl; [apply list_elem_of_here|].
  destruct (String.eqb_spec k k0);
    [apply list_elem_of_here | by apply list_elem_of_further].
Qed.

Lemma entries_put_other l k v k' v' :
  k' <> k -> (k', v') ∈ l -> (k', v') ∈ entries_put k v l.
Proof.
  intros Hne. induction l as [|[k0 v0] l IH]; simpl.
  - by intros ?%elem_of_nil.
  - destruct (String.eqb_spec k k0) as [<- | Hk];
      intros [E | Hin]%elem_of_cons.
    + congruence.
    + by apply list_elem_of_further.
    + rewrite E. apply list_elem_of_here.
    + apply list_elem_of_further. by apply IH.
Qed.

Lemma entries_put_keys l k v k' :
  k' ∈ (entries_put k v l).*1 <-> k' = k \/ k' ∈ l.*1.
Proof.
  induction l as [|[k0 v0] l IH]; simpl.
  - rewrite list_elem_of_singleton. split; [auto|].
    intros [? | ?%elem_of_nil]; done.
  - destruct (String.eqb_spec k k0) as [<- | Hk]; simpl;
      rewrite !elem_of_cons; [tauto|]. rewrite IH. tauto.
Qed.

Lemma entries_put_NoDup l k v : NoDup l.*1 -> NoDup (entries_put k v l).*1.
Proof.
  induction l as [|[k0 v0] l IH]; simpl; intros Hnd.
  - apply NoDup_singleton.
  - apply NoDup_cons in Hnd as [Hnotin Hnd].
    destruct (String.eqb_spec k k0) as [<- | Hk]; simpl.
    + by apply NoDup_cons.
    + apply NoDup_cons. split; [|by apply IH].
      rewrite entries_put_keys. intros [? | ?]; [congruence | done].
Qed.

Lemma entries_put_fresh l k v v' :
  NoDup l.*1 -> (k, v') ∈ entries_put k v l -> v' = v.
Proof.
  induction l as [|[k0 v0] l IH]; simpl; intros Hnd.
  - by intros [= ->]%list_elem_of_singleton.
  - apply NoDup_cons in Hnd as [Hnotin Hnd].
    destruct (String.eqb_spec k k0) as [<- | Hk];
      intros [E | Hin]%elem_of_cons.
    + by injection E.
    + exfalso. apply Hnotin. simpl.
      apply list_elem_of_fmap. by exists (k, v').
    + congruence.
    + by apply IH.
Qed.

Lemma entries_put_put l k v1 v2 :
  entries_put k v2 (entries_put k v1 l) = entries_put k v2 l.
Proof.
  induction l as [|[k0 v0] l IH]; simpl.
  - by rewrite String.eqb_refl.
  - destruct (String.eqb_spec k k0) as [<- | Hk]; simpl.
    + by rewrite String.eqb_refl.
    + destruct (String.eqb_spec k k0); [done|]. by rewrite IH.
Qed.

(** After [m[k] = v], the entry is the only one of its canonical name
    when no other key of the map had that name. *)
Lemma entries_put_sole l k v :
  NoDup l.*1 ->
  (forall e, e ∈ l ->
     CanonicalMIMEHeaderKey e.1 = CanonicalMIMEHeaderKey k -> e.1 = k) ->
  sole_entry k v (entries_put k v l).
Proof.
  intros Hnd Hname [k' v'] He Hc. simpl in Hc.
  destruct (entries_put_elem _ _ _ _ _ He) as [[-> ->] | [[Hne Hin] | [-> Hin]]].
  - reflexivity.
  - destruct Hne. exact (Hname _ Hin Hc).
  - by rewrite (entries_put_fresh _ _ _ _ Hnd He).
Qed.
End Entries.

Lemma with_headers_Return clt o clt' :
  with_headers clt o = Return clt' ->
  exists h, o = Return h /\ clt' =
    {| client := client clt; endpoint := endpoint clt; headers := h;
       selfSigned := selfSigned clt |}.
Proof. destruct o; simpl; [|done]. intros [= <-]. by eexists. Qed.

Lemma assign_Return {V} (m : GoMap V) k v m' :
  assign m k v = Return m' ->
  exists l, m = mkmap l /\ m' = mkmap (entries_put k v l).
Proof. destruct m; simpl; [done|]. intros [= <-]. by eexists. Qed.

(** X1: on a client whose header map is not nil, [AddHeader] returns
    and records the header: afterwards the map is still a map (distinct
    keys), it holds [key] with [value] and no other value, every entry
    under another key is as before, and the other fields are
    untouched. *)
Theorem AddHeader_records (clt : Client) (key value : string) :
  headers clt <> nilmap ->
  GoMap_wf (headers clt) ->
  exists clt',
    AddHeader clt key value = Return clt'
    /\ client clt' = client clt
    /\ endpoint clt' = endpoint clt
    /\ selfSigned clt' = selfSigned clt
    /\ headers clt' <> nilmap
    /\ GoMap_wf (headers clt')
    /\ forall k v,
        (k, v) ∈ range (headers clt') <->
        (k = key /\ v = value) \/ (k <> key /\ (k, v) ∈ range (headers clt)).
Proof.
  unfold AddHeader, GoMap_wf.
  destruct (headers clt) as [|l] eqn:E; [done|]. intros _ Hnd. simpl in *.
  eexists. split; [reflexivity|]. simpl.
  do 4 (split; [done|]). split; [by apply entries_put_NoDup|].
  intros k v. split.
  - intros Hin.
    destruct (entries_put_elem _ _ _ _ _ Hin) as [? | [? | [-> Hl]]]; auto.
    left. split; [done|]. by apply (entries_put_fresh l key value).
  - intros [[-> ->] | [Hne Hin]];
      [apply entries_put_here | by apply entries_put_other].
Qed.

(** X2: setting the same header twice is setting it once with the
    second value. *)
Theorem AddHeader_last_wins (clt clt1 : Client) (key v1 v2 : string) :
  AddHeader clt key v1 = Return clt1 ->
  AddHeader clt1 key v2 = AddHeader clt key v2.
Proof.
  unfold AddHeader. intros (h & Hh & ->)%with_headers_Return.
  apply assign_Return in Hh as (l & E & ->). rewrite E. simpl.
  by rewrite entries_put_put.
Qed.

Section SetThenCall.
Context `{Runtime}.

Lemma assigned_header_is_sent forced prefix clt name value clt' method path
    customHeaders params w req :
  GoMap_wf (headers clt) ->
  with_headers clt (assign (headers clt) name value) = Return clt' ->
  (forall e, e ∈ range (headers clt) ->
     CanonicalMIMEHeaderKey e.1 = CanonicalMIMEHeaderKey name -> e.1 = name) ->
  no_name name (range customHeaders) ->
  (forced = true ->
   ToUpper method = "GET"
   \/ CanonicalMIMEHeaderKey "Content-Type" <> CanonicalMIMEHeaderKey name) ->
  outbound w
    (call_run prefix forced clt' method path customHeaders params w).2 req ->
  Header_Values (ReqHeader req) name = [value].
Proof.
  intros Hwf (h & Hh & ->)%with_headers_Return Hname Hno Hct Hout.
  apply assign_Return in Hh as (l & E & ->).
  unfold GoMap_wf in Hwf. rewrite E in Hwf, Hname. simpl in Hwf, Hname.
  destruct (call_run_outbound _ _ _ _ _ _ _ _ _ Hout) as (r & _ & ->).
  unfold finished. simpl.
  assert (Header_Values
            (ReqHeader (setHeaders r (mkmap (entries_put name value l))
                          customHeaders)) name = [value]) as Hset.
  { apply setHeaders_default; [apply entries_put_here | | exact Hno].
    by apply entries_put_sole. }
  destruct (String.eqb (ToUpper method) "GET") eqn:Hm; [exact Hset|].
  destruct forced; [|exact Hset].
  destruct (Hct eq_refl) as [Hget | Hk].
  - apply is_GET in Hget. congruence.
  - simpl. by rewrite Header_Values_Set_ne.
Qed.

(** X3: a header recorded with [AddHeader] is on the request of the
    next [Call], with the value given, provided no other default key
    and no custom key has its canonical name (and, in [src/client.go]
    for a method other than GET, the name is not [Content-Type]). *)
Theorem AddHeader_then_Call (clt clt' : Client) (key value : string)
    (method path : string) (customHeaders params : GoMap Value)
    (w : World) (req : Request) :
  GoMap_wf (headers clt) ->
  AddHeader clt key value = Return clt' ->
  (forall e, e ∈ range (headers clt) ->
     CanonicalMIMEHeaderKey e.1 = CanonicalMIMEHeaderKey key -> e.1 = key) ->
  no_name key (range customHeaders) ->
  (outbound w (Part000.Call clt' method path customHeaders params w).2 req ->
   Header_Values (ReqHeader req) key = [value])
  /\ (ToUpper method = "GET"
      \/ CanonicalMIMEHeaderKey "Content-Type" <> CanonicalMIMEHeaderKey key ->
      outbound w (ClientGo.Call clt' method path customHeaders params w).2 req ->
      Header_Values (ReqHeader req) key = [value]).
Proof.
  intros Hwf Hadd Hname Hno. rewrite ClientGo_Call_run, Part000_Call_run.
  split.
  - eapply assigned_header_is_sent; eauto.
  - intros Hct. eapply assigned_header_is_sent; eauto.
Qed.

(** X4: [SetProject], [SetKey], [SetLocale] and [SetMode] put their
    well-known header on the request of the next [Call], in both files
    and for every method, provided no other default key and no custom
    key has that canonical name. *)
Theorem well_known_header_is_sent (name : string)
    (set : Client -> string -> Outcome Client) (clt clt' : Client)
    (value method path : string) (customHeaders params : GoMap Value)
    (w : World) (req : Request) :
  (name, set) ∈ well_known_setters ->
  GoMap_wf (headers clt) ->
  set clt value = Return clt' ->
  (forall e, e ∈ range (headers clt) ->
     CanonicalMIMEHeaderKey e.1 = CanonicalMIMEHeaderKey name -> e.1 = name) ->
  no_name name (range customHeaders) ->
  outbound w (ClientGo.Call clt' method path customHeaders params w).2 req
  \/ outbound w (Part000.Call clt' method path customHeaders params w).2 req ->
  Header_Values (ReqHeader req) name = [value].
Proof.
  intros Hset Hwf Hret Hname Hno. rewrite ClientGo_Call_run, Part000_Call_run.
  unfold well_known_setters in Hset.
  repeat (apply elem_of_cons in Hset as [[= -> ->] | Hset]);
    [| | | |by apply elem_of_nil in Hset];
    (intros [Hout | Hout];
     [eapply (assigned_header_is_sent true); eauto;
      intros _; right; vm_compute; discriminate
     |eapply (assigned_header_is_sent false); eauto; done]).
Qed.
End SetThenCall.

(** ** What a call does and does not do *)

Section CallEffects.
Context `{Runtime}.

Lemma http_NewRequest_parts method url body r :
  http_NewRequest method url body = inl r ->
  exists u,
    url_Parse url = inl u
    /\ ReqURL r = URL_with_Host u (removeEmptyPort (Host u))
    /\ Method r = (if String.eqb method "" then "GET" else method)
    /\ validMethod (Method r) = true.
Proof.
  unfold http_NewRequest.
  destruct (validMethod _) eqn:Hv; simpl; [|discriminate].
  destruct (url_Parse url) as [u|]; [|discriminate].
  intros [= <-]. exists u. simpl. by rewrite Hv.
Qed.

Lemma finished_parts forced clt method customHeaders params r :
  let req := finished forced clt method customHeaders params r in
  Method req = Method r
  /\ Scheme (ReqURL req) = Scheme (ReqURL r)
  /\ Host (ReqURL req) = Host (ReqURL r)
  /\ Path (ReqURL req) = Path (ReqURL r)
  /\ Fragment (ReqURL req) = Fragment (ReqURL r)
  /\ (String.eqb (ToUpper method) "GET" = false -> ReqURL req = ReqURL r).
Proof.
  unfold finished.
  destruct (setHeaders_rest r (headers clt) customHeaders) as (Em & Eu & _).
  destruct (String.eqb _ _); [|destruct forced]; simpl;
    rewrite ?Em, ?Eu; repeat split; done.
Qed.

(** X5: [selfSigned] is stored and never consulted: a call on the
    client with the flag set to any value does to the world what the
    call on the original client does, and returns the same result,
    with the same client up to the flag. *)
Theorem selfSigned_is_not_consulted (clt : Client) (status : bool)
    (method path : string) (customHeaders params : GoMap Value) (w : World) :
  SetSelfSigned clt status = Return (with_selfSigned clt status)
  /\ ClientGo.Call (with_selfSigned clt status) method path customHeaders params w
     = (Outcome_map (fun rc => (rc.1, with_selfSigned rc.2 status))
          (ClientGo.Call clt method path customHeaders params w).1,
        (ClientGo.Call clt method path customHeaders params w).2)
  /\ Part000.Call (with_selfSigned clt status) method path customHeaders params w
     = (Outcome_map (fun rc => (rc.1, with_selfSigned rc.2 status))
          (Part000.Call clt method path customHeaders params w).1,
        (Part000.Call clt method path customHeaders params w).2).
Proof.
  split; [reflexivity|]. rewrite !ClientGo_Call_run, !Part000_Call_run.
  unfold call_run. simpl.
  change (handle_of (with_selfSigned clt status) w) with (handle_of clt w).
  change (finished ?f (with_selfSigned clt status)) with (finished f clt).
  split; destruct (http_NewRequest _ _ _); reflexivity.
Qed.

Lemma call_run_target prefix forced clt method path customHeaders params w
    req :
  outbound w
    (call_run prefix forced clt method path customHeaders params w).2 req ->
  exists u,
    url_Parse (endpoint clt ++ path)%string = inl u
    /\ Scheme (ReqURL req) = Scheme u
    /\ Host (ReqURL req) = removeEmptyPort (Host u)
    /\ Path (ReqURL req) = Path u
    /\ Fragment (ReqURL req) = Fragment u
    /\ (ToUpper method <> "GET" ->
        ReqURL req = URL_with_Host u (removeEmptyPort (Host u)))
    /\ Method req = (if String.eqb method "" then "GET" else method).
Proof.
  intros Hout.
  destruct (call_run_outbound _ _ _ _ _ _ _ _ _ Hout) as (r & Hr & ->).
  destruct (http_NewRequest_parts _ _ _ _ Hr) as (u & Hu & Hurl & Hm & _).
  destruct (finished_parts forced clt method customHeaders params r)
    as (Em & Es & Eh & Ep & Ef & Eq).
  exists u. rewrite <- Hm. rewrite Hurl in Es, Eh, Ep, Ef, Eq.
  do 5 (split; [assumption|]). split; [|assumption].
  intros Hne. apply Eq. by apply not_GET.
Qed.

(** X6: the request goes to the URL [url.Parse] makes of the endpoint
    and the path put end to end, nothing added between them, with an
    empty port taken off the host as [http.NewRequest] does; only its
    query is rewritten, and only for GET.  Its method is the one given,
    or GET when the given one is empty. *)
Theorem request_target (clt : Client) (method path : string)
    (customHeaders params : GoMap Value) (w : World) (req : Request) :
  outbound w (ClientGo.Call clt method path customHeaders params w).2 req
  \/ outbound w (Part000.Call clt method path customHeaders params w).2 req ->
  exists u,
    url_Parse (endpoint clt ++ path)%string = inl u
    /\ Scheme (ReqURL req) = Scheme u
    /\ Host (ReqURL req) = removeEmptyPort (Host u)
    /\ Path (ReqURL req) = Path u
    /\ Fragment (ReqURL req) = Fragment u
    /\ (ToUpper method <> "GET" ->
        ReqURL req = URL_with_Host u (removeEmptyPort (Host u)))
    /\ Method req = (if String.eqb method "" then "GET" else method).
Proof.
  rewrite ClientGo_Call_run, Part000_Call_run.
  intros [Hout | Hout]; exact (call_run_target _ _ _ _ _ _ _ _ _ Hout).
Qed.

(** X7: a method that is not empty and has a byte outside the token
    bytes makes [Call] return the invalid-method error of [net/http],
    which quotes the method as [%q] does, with a nil map, and send
    nothing; so does a URL that [url.Parse] rejects, with the parser's
    error.  The client has its handle all the same. *)
Theorem construction_errors (clt : Client) (method path : string)
    (customHeaders params : GoMap Value) (w : World) (err : error) :
  (method <> "" /\ validMethod method = false
   /\ err = Err ("net/http: invalid method " ++ strconv_Quote method)%string)
  \/ ((method = "" \/ validMethod method = true)
      /\ url_Parse (endpoint clt ++ path)%string = inr err) ->
  (ClientGo.Call clt method path customHeaders params w).1
  = Return ((nilmap, Some err), initialized clt w)
  /\ sent (ClientGo.Call clt method path customHeaders params w).2 = sent w
  /\ (Part000.Call clt method path customHeaders params w).1
     = Return ((nilmap, Some err), initialized clt w)
  /\ sent (Part000.Call clt method path customHeaders params w).2 = sent w.
Proof.
  intros Hcase. rewrite ClientGo_Call_run, Part000_Call_run. unfold call_run.
  assert (http_NewRequest method (endpoint clt ++ path)%string
            (reqBody_of method params) = inr err) as ->; [|by repeat split].
  unfold http_NewRequest.
  destruct Hcase as [(Hne & Hv & ->) | ([-> | Hv] & Hp)].
  - apply String.eqb_neq in Hne. by rewrite Hne, Hv.
  - simpl. by rewrite Hp.
  - destruct (String.eqb method ""); [simpl | rewrite Hv; simpl]; by rewrite Hp.
Qed.

(** X8: one call hands at most one request to the transport, always
    through the client's own handle, and exactly one when
    [http.NewRequest] succeeds: there is no retry, whatever the
    transport answers.  The network itself is as it was. *)
Theorem at_most_one_request (clt : Client) (method path : string)
    (customHeaders params : GoMap Value) (w : World) :
  let n := if http_NewRequest method (endpoint clt ++ path)%string
                (reqBody_of method params) is inl _ then 1 else 0 in
  (exists new,
      sent (ClientGo.Call clt method path customHeaders params w).2 = sent w ++ new
      /\ length new = n /\ Forall (fun hr => hr.1 = handle_of clt w) new
      /\ network (ClientGo.Call clt method path customHeaders params w).2
         = network w)
  /\ (exists new,
         sent (Part000.Call clt method path customHeaders params w).2 = sent w ++ new
         /\ length new = n /\ Forall (fun hr => hr.1 = handle_of clt w) new
         /\ network (Part000.Call clt method path customHeaders params w).2
            = network w).
Proof.
  rewrite ClientGo_Call_run, Part000_Call_run. unfold call_run.
  destruct (http_NewRequest _ _ _); simpl; split;
    first [ eexists [_]; by repeat split; repeat constructor
          | exists []; rewrite app_nil_r; by repeat split ].
Qed.

(** X9: an error of the transport comes back from [Call] as it is,
    with a nil map; the request was handed over once. *)
Theorem transport_error_is_returned (clt : Client) (method path : string)
    (customHeaders params : GoMap Value) (w : World) (req : Request)
    (err : error) :
  network w (sent w) (handle_of clt w) req = inr err ->
  (outbound w (ClientGo.Call clt method path customHeaders params w).2 req ->
   (ClientGo.Call clt method path customHeaders params w).1
   = Return ((nilmap, Some err), initialized clt w))
  /\ (outbound w (Part000.Call clt method path customHeaders params w).2 req ->
      (Part000.Call clt method path customHeaders params w).1
      = Return ((nilmap, Some err), initialized clt w)).
Proof.
  intros Hnet. rewrite ClientGo_Call_run, Part000_Call_run.
  split; intros Hout; by rewrite (call_run_answer _ _ _ _ _ _ _ _ _ Hout), Hnet.
Qed.

Lemma result_of_error r m err : result_of r = (m, Some err) -> m = nilmap.
Proof.
  destruct r as [response | e]; simpl.
  - apply parseJSONResponse_error.
  - congruence.
Qed.

(** X10: whenever [Call] returns an error, the map it returns with it
    is nil: no failure of construction, transport or decoding leaves a
    map beside the error. *)
Theorem error_comes_with_nil_map (clt clt' : Client) (method path : string)
    (customHeaders params : GoMap Value) (w : World)
    (m : GoMap JSONValue) (err : error) :
  (ClientGo.Call clt method path customHeaders params w).1
    = Return ((m, Some err), clt')
  \/ (Part000.Call clt method path customHeaders params w).1
     = Return ((m, Some err), clt') ->
  m = nilmap.
Proof.
  rewrite ClientGo_Call_run, Part000_Call_run. unfold call_run.
  destruct (http_NewRequest _ _ _); simpl; intros [E | E];
    injection E as E _;
    first [ by apply result_of_error in E | by injection E | congruence ].
Qed.

(** X11: what a call writes to the log.  A GET logs nothing.  Any
    other method logs the JSON text of [params], alone in
    [src/client.go] and after [JSON Data: ] in [src/unnamed/part_000],
    also when the request is then refused or fails; when the parameters
    cannot be serialized nothing is logged. *)
Theorem what_is_logged (clt : Client) (method path : string)
    (customHeaders params : GoMap Value) (w : World) :
  let a := (ClientGo.Call clt method path customHeaders params w).2 in
  let b := (Part000.Call clt method path customHeaders params w).2 in
  (ToUpper method = "GET" ->
   log_lines a = log_lines w /\ log_lines b = log_lines w)
  /\ (forall err, json_Marshal params = inr err ->
        log_lines a = log_lines w /\ log_lines b = log_lines w)
  /\ (forall jsonData,
         ToUpper method <> "GET" -> json_Marshal params = inl jsonData ->
         log_lines a = log_lines w ++ [jsonData]
         /\ log_lines b = log_lines w ++ [("JSON Data: " ++ jsonData)%string]).
Proof.
  intros a b. subst a b. rewrite ClientGo_Call_run, Part000_Call_run.
  assert (forall prefix forced,
             log_lines (call_run prefix forced clt method path customHeaders
                          params w).2
             = log_lines w ++ logged_of prefix method params) as Hlog.
  { intros. unfold call_run. by destruct (http_NewRequest _ _ _). }
  rewrite !Hlog. unfold logged_of. split; [|split].
  - intros Hm%is_GET. rewrite Hm. by rewrite app_nil_r.
  - intros err Hj. rewrite Hj.
    destruct (String.eqb _ _); by rewrite app_nil_r.
  - intros jsonData Hm%not_GET Hj. by rewrite Hm, Hj.
Qed.

(** X12: the empty method.  [Call] does not take it for GET, while
    [http.NewRequest] makes it GET: the request goes out with method
    GET, with the JSON text of [params] as its body and the URL's query
    as parsed, the parameters not in it. *)
Theorem empty_method_is_GET_with_body (clt : Client) (path : string)
    (customHeaders params : GoMap Value) (w : World)
    (jsonData : string) (u : URL) :
  json_Marshal params = inl jsonData ->
  url_Parse (endpoint clt ++ path)%string = inl u ->
  (exists req,
      outbound w (ClientGo.Call clt "" path customHeaders params w).2 req
      /\ Method req = "GET" /\ ReqBody req = Some jsonData
      /\ RawQuery (ReqURL req) = RawQuery u
      /\ ReqURL req = URL_with_Host u (removeEmptyPort (Host u))
      /\ Header_Get (ReqHeader req) "Content-Type" = "application/json")
  /\ (exists req,
         outbound w (Part000.Call clt "" path customHeaders params w).2 req
         /\ Method req = "GET" /\ ReqBody req = Some jsonData
         /\ RawQuery (ReqURL req) = RawQuery u
         /\ ReqURL req = URL_with_Host u (removeEmptyPort (Host u))).
Proof.
  intros Hj Hu. rewrite ClientGo_Call_run, Part000_Call_run.
  assert (http_NewRequest "" (endpoint clt ++ path)%string
            (reqBody_of "" params)
          = inl {| Method := "GET";
                   ReqURL := URL_with_Host u (removeEmptyPort (Host u));
                   ReqHeader := ∅; ReqBody := Some jsonData |}) as Hr.
  { unfold http_NewRequest, reqBody_of. simpl. by rewrite Hj, Hu. }
  split; eexists; (split; [apply (call_run_sends _ _ _ _ _ _ _ _ _ Hr)|]);
    unfold finished; simpl;
    destruct (setHeaders_rest
                {| Method := "GET";
                   ReqURL := URL_with_Host u (removeEmptyPort (Host u));
                   ReqHeader := ∅; ReqBody := Some jsonData |}
                (headers clt) customHeaders)
      as (-> & -> & ->); repeat split.
  unfold Header_Get. by rewrite Header_Values_Set.
Qed.

Lemma run_with_setters call clt ops w :
  forallb is_setter ops = true ->
  (run_with call clt ops w).2 = w
  /\ forall clt', (run_with call clt ops w).1 = Return clt' ->
                  client clt' = client clt.
Proof.
  revert clt. induction ops as [|op ops IH]; intros clt Hs; simpl.
  - split; [done|]. by intros clt' [= <-].
  - simpl in Hs. apply andb_prop in Hs as [Hop Hs].
    unfold mbind, M_bind.
    assert ((exec_with call clt op w).2 = w
            /\ forall c, (exec_with call clt op w).1 = Return c ->
                         client c = client clt) as [Hw Hc].
    { destruct op; try discriminate; simpl; unfold lift; simpl;
        (split; [reflexivity|]); intros c E;
        first [ by injection E as <- | by eapply with_headers_client ]. }
    destruct (exec_with call clt op w) as [[c|msg] w1]; simpl in *; subst w1.
    + destruct (IH c Hs) as [-> Hc']. split; [done|].
      intros clt' E. rewrite (Hc' _ E). by apply Hc.
    + split; [done|]. discriminate.
Qed.

(** X13: configuring does no input or output.  A sequence of setters,
    however long, leaves the world as it was (nothing sent, nothing
    logged, no handle made) and the client's handle as it was: the
    handle is only ever made by [Call]. *)
Theorem setters_do_no_io (clt : Client) (ops : list Op) (w : World) :
  forallb is_setter ops = true ->
  ((ClientGo.run clt ops w).2 = w
   /\ forall clt', (ClientGo.run clt ops w).1 = Return clt' ->
                   client clt' = client clt)
  /\ ((Part000.run clt ops w).2 = w
      /\ forall clt', (Part000.run clt ops w).1 = Return clt' ->
                      client clt' = client clt).
Proof. intros Hs. split; by apply run_with_setters. Qed.
End CallEffects.

(** ** The headers and the query of the request, in full *)

Section LayersInFull.
Context {V : Type} (g : V -> string).

Local Abbreviation set_all r l :=
  (foldl (fun r' kv => Request_Header_Set r' kv.1 (g kv.2)) r l).

Lemma set_all_dom r (l : list (string * V)) :
  dom (ReqHeader (set_all r l)) = dom (ReqHeader r) ∪ canonical_names l.
Proof.
  revert r. induction l as [|e l IH]; intros r; simpl.
  - unfold canonical_names. simpl. by rewrite (right_id_L ∅ (∪)).
  - rewrite IH. simpl. unfold Header_Set, canonical_names. simpl.
    rewrite dom_insert_L.
    by rewrite (comm_L (∪) {[CanonicalMIMEHeaderKey e.1]}),
      <- (assoc_L (∪)).
Qed.

Lemma set_all_single r (l : list (string * V)) :
  (forall c vs, ReqHeader r !! c = Some vs -> exists x, vs = [x]) ->
  forall c vs, ReqHeader (set_all r l) !! c = Some vs -> exists x, vs = [x].
Proof.
  revert r. induction l as [|e l IH]; intros r Hr; simpl; [exact Hr|].
  apply IH. intros c vs. simpl. unfold Header_Set.
  destruct (decide (CanonicalMIMEHeaderKey e.1 = c)) as [<- | Hne].
  - rewrite lookup_insert_eq. intros [= <-]. by eexists.
  - rewrite lookup_insert_ne by done. apply Hr.
Qed.

Lemma set_all_last r (l : list (string * V)) name :
  ReqHeader (set_all r l) !! name
  = match last_named name (prod_map id g <$> l) with
    | Some v => Some [v]
    | None => ReqHeader r !! name
    end.
Proof.
  revert r. induction l as [|e l IH]; intros r; [done|].
  simpl. rewrite IH. unfold last_named. simpl.
  rewrite filter_cons. simpl. unfold Header_Set.
  destruct (decide (CanonicalMIMEHeaderKey e.1 = name)) as [<- | Hne].
  - rewrite last_cons.
    destruct (last (filter _ _)); simpl; [done|]. by rewrite lookup_insert_eq.
  - destruct (last (filter _ _)); simpl; [done|]. by rewrite lookup_insert_ne.
Qed.
End LayersInFull.

Section RequestInFull.
Context `{Runtime}.

Lemma prod_map_id_id (l : list (string * string)) :
  prod_map id (fun v : string => v) <$> l = l.
Proof.
  induction l as [|[k v] l IH]; [done|]. by rewrite fmap_cons, IH.
Qed.

Lemma setHeaders_dom r clientHeaders customHeaders :
  dom (ReqHeader (setHeaders r clientHeaders customHeaders))
  = dom (ReqHeader r) ∪ canonical_names (range clientHeaders)
    ∪ canonical_names (range customHeaders).
Proof.
  unfold setHeaders.
  by rewrite (set_all_dom ToString), (set_all_dom (fun v : string => v)).
Qed.

Lemma setHeaders_single r clientHeaders customHeaders :
  (forall c vs, ReqHeader r !! c = Some vs -> exists x, vs = [x]) ->
  forall c vs,
    ReqHeader (setHeaders r clientHeaders customHeaders) !! c = Some vs ->
    exists x, vs = [x].
Proof.
  intros Hr. unfold setHeaders.
  apply (set_all_single ToString), (set_all_single (fun v : string => v)), Hr.
Qed.

Lemma last_named_app name l1 l2 :
  last_named name (l1 ++ l2)
  = match last_named name l2 with
    | Some v => Some v
    | None => last_named name l1
    end.
Proof.
  unfold last_named. rewrite filter_app.
  destruct (filter _ l2) as [|e l] eqn:E using rev_ind.
  - by rewrite app_nil_r.
  - rewrite app_assoc, !last_snoc. done.
Qed.

Lemma setHeaders_last r clientHeaders customHeaders name :
  ReqHeader (setHeaders r clientHeaders customHeaders) !! name
  = match last_named name (layers clientHeaders customHeaders) with
    | Some v => Some [v]
    | None => ReqHeader r !! name
    end.
Proof.
  unfold setHeaders, layers.
  rewrite (set_all_last ToString), (set_all_last (fun v : string => v)).
  rewrite prod_map_id_id, last_named_app.
  by destruct (last_named name (prod_map id ToString <$> range customHeaders)).
Qed.

Lemma finished_headers forced clt method customHeaders params r :
  ReqHeader r = ∅ ->
  let names := canonical_names (range (headers clt))
               ∪ canonical_names (range customHeaders) in
  let req := finished forced clt method customHeaders params r in
  dom (ReqHeader req)
  = (if String.eqb (ToUpper method) "GET" then names
     else if forced then names ∪ {[CanonicalMIMEHeaderKey "Content-Type"]}
     else names)
  /\ forall c vs, ReqHeader req !! c = Some vs -> exists x, vs = [x].
Proof.
  intros Hempty names req. subst names req.
  assert (forall c vs, ReqHeader r !! c = Some vs -> exists x, vs = [x])
    as Hsingle by (intros c vs; by rewrite Hempty, lookup_empty).
  assert (dom (ReqHeader (setHeaders r (headers clt) customHeaders))
          = canonical_names (range (headers clt))
            ∪ canonical_names (range customHeaders)) as Hdom.
  { by rewrite setHeaders_dom, Hempty, dom_empty_L, (left_id_L ∅ (∪)). }
  unfold finished. destruct (String.eqb _ _); [|destruct forced].
  - change (ReqHeader (updateQueryParameters ?a ?b)) with (ReqHeader a).
    split; [exact Hdom | by apply setHeaders_single].
  - change (ReqHeader (Request_Header_Set ?a ?k ?v))
      with (<[CanonicalMIMEHeaderKey k := [v]]> (ReqHeader a)).
    split.
    + by rewrite dom_insert_L, Hdom, (comm_L (∪)).
    + intros c vs.
      destruct (decide (CanonicalMIMEHeaderKey "Content-Type" = c))
        as [<- | Hne].
      * rewrite lookup_insert_eq. intros [= <-]. by eexists.
      * rewrite lookup_insert_ne by done. by apply setHeaders_single.
  - split; [exact Hdom | by apply setHeaders_single].
Qed.

(** X14: the headers of the request are the canonical names of the
    default keys and of the custom keys and no other -- but for
    [Content-Type] on a request of [src/client.go] that is not GET --
    and each carries exactly one value. *)
Theorem request_header_names (clt : Client) (method path : string)
    (customHeaders params : GoMap Value) (w : World) (req : Request) :
  let names := canonical_names (range (headers clt))
               ∪ canonical_names (range customHeaders) in
  (outbound w (ClientGo.Call clt method path customHeaders params w).2 req ->
   dom (ReqHeader req)
   = (if String.eqb (ToUpper method) "GET" then names
      else names ∪ {[CanonicalMIMEHeaderKey "Content-Type"]})
   /\ forall c vs, ReqHeader req !! c = Some vs -> exists x, vs = [x])
  /\ (outbound w (Part000.Call clt method path customHeaders params w).2 req ->
      dom (ReqHeader req) = names
      /\ forall c vs, ReqHeader req !! c = Some vs -> exists x, vs = [x]).
Proof.
  intros names. subst names. rewrite ClientGo_Call_run, Part000_Call_run.
  split; intros Hout;
    destruct (call_run_outbound _ _ _ _ _ _ _ _ _ Hout) as (r & Hr & ->);
    apply http_NewRequest_inl in Hr as [_ Hempty].
  - exact (finished_headers true clt method customHeaders params r Hempty).
  - destruct (finished_headers false clt method customHeaders params r Hempty)
      as [Hdom Hsingle].
    split; [|exact Hsingle]. rewrite Hdom. by destruct (String.eqb _ _).
Qed.

(** X15: the value of a header of the request, in full: it is the
    value of the last entry with that canonical name in the default
    entries followed by the custom entries, in the order [range]
    visited them, and the header is absent when there is none.  In
    [src/client.go] this holds for GET, and otherwise for every name
    but [Content-Type]. *)
Theorem request_header_value (clt : Client) (method path : string)
    (customHeaders params : GoMap Value) (w : World) (req : Request)
    (name : string) :
  let value :=
    match last_named (CanonicalMIMEHeaderKey name)
            (layers (headers clt) customHeaders) with
    | Some v => [v]
    | None => []
    end in
  (outbound w (Part000.Call clt method path customHeaders params w).2 req ->
   Header_Values (ReqHeader req) name = value)
  /\ (ToUpper method = "GET"
      \/ CanonicalMIMEHeaderKey "Content-Type" <> CanonicalMIMEHeaderKey name ->
      outbound w (ClientGo.Call clt method path customHeaders params w).2 req ->
      Header_Values (ReqHeader req) name = value).
Proof.
  intros value. subst value. rewrite ClientGo_Call_run, Part000_Call_run.
  assert (forall r, ReqHeader r = ∅ ->
            Header_Values
              (ReqHeader (setHeaders r (headers clt) customHeaders)) name
            = match last_named (CanonicalMIMEHeaderKey name)
                      (layers (headers clt) customHeaders) with
              | Some v => [v]
              | None => []
              end) as Hset.
  { intros r Hempty. unfold Header_Values.
    rewrite setHeaders_last, Hempty, lookup_empty.
    by destruct (last_named _ _). }
  split; [|intros Hct]; intros Hout;
    destruct (call_run_outbound _ _ _ _ _ _ _ _ _ Hout) as (r & Hr & ->);
    apply http_NewRequest_inl in Hr as [_ Hempty];
    unfold finished.
  - destruct (String.eqb _ _); by apply Hset.
  - destruct Hct as [Hm%is_GET | Hk].
    + rewrite Hm. by apply Hset.
    + destruct (String.eqb _ _); simpl;
        rewrite ?Header_Values_Set_ne by exact Hk; by apply Hset.
Qed.

(** X16: [src/unnamed/part_000] sends a JSON body without saying so:
    when neither layer has a key named [Content-Type], its request for
    a method other than GET carries the JSON text of [params] and no
    [Content-Type] header at all. *)
Theorem Part000_sends_no_Content_Type (clt : Client) (method path : string)
    (customHeaders params : GoMap Value) (w : World) (req : Request)
    (jsonData : string) :
  ToUpper method <> "GET" ->
  json_Marshal params = inl jsonData ->
  no_name "Content-Type" (range (headers clt)) ->
  no_name "Content-Type" (range customHeaders) ->
  outbound w (Part000.Call clt method path customHeaders params w).2 req ->
  ReqBody req = Some jsonData
  /\ ReqHeader req !! CanonicalMIMEHeaderKey "Content-Type" = None
  /\ Header_Get (ReqHeader req) "Content-Type" = "".
Proof.
  intros Hm%not_GET Hj Hd Hc. rewrite Part000_Call_run. intros Hout.
  destruct (call_run_outbound _ _ _ _ _ _ _ _ _ Hout) as (r & Hr & ->).
  apply http_NewRequest_inl in Hr as [Hbody Hempty].
  split.
  - rewrite finished_body, Hbody. unfold reqBody_of. by rewrite Hm, Hj.
  - assert (ReqHeader (finished false clt method customHeaders params r)
              !! CanonicalMIMEHeaderKey "Content-Type" = None) as Hnone.
    { unfold finished, setHeaders. rewrite Hm.
      rewrite (set_all_other ToString) by exact Hc.
      rewrite (set_all_other (fun v : string => v)) by exact Hd.
      by rewrite Hempty. }
    split; [exact Hnone|]. unfold Header_Get, Header_Values. by rewrite Hnone.
Qed.
End RequestInFull.

Section QueryInFull.
Context `{Runtime}.




End QueryInFull.

(** ** Which methods are GET *)

Lemma to_upper_G c : to_upper c = "G"%char -> c = "G"%char \/ c = "g"%char.
Proof.
  destruct c as [[] [] [] [] [] [] [] []]; vm_compute; intros E;
    first [discriminate E | by left | by right].
Qed.

Lemma to_upper_E c : to_upper c = "E"%char -> c = "E"%char \/ c = "e"%char.
Proof.
  destruct c as [[] [] [] [] [] [] [] []]; vm_compute; intros E;
    first [discriminate E | by left | by right].
Qed.

Lemma to_upper_T c : to_upper c = "T"%char -> c = "T"%char \/ c = "t"%char.
Proof.
  destruct c as [[] [] [] [] [] [] [] []]; vm_compute; intros E;
    first [discriminate E | by left | by right].
Qed.

(** X18: the methods [Call] treats as GET (no body, parameters in the
    query) are exactly the eight spellings of the three letters in
    upper and lower case; every other method, the empty one too, takes
    the other path. *)
Theorem GET_methods (method : string) :
  String.eqb (ToUpper method) "GET" = true <-> method ∈ GET_spellings.
Proof.
  split.
  - intros E%String.eqb_eq.
    destruct method as [|a [|b [|c [|d rest]]]]; try discriminate E.
    simpl in E. injection E as Ea Eb Ec.
    apply to_upper_G in Ea as [-> | ->];
      apply to_upper_E in Eb as [-> | ->];
      apply to_upper_T in Ec as [-> | ->];
      unfold GET_spellings; set_solver.
  - unfold GET_spellings. intros Hin.
    repeat (apply elem_of_cons in Hin as [-> | Hin]; [reflexivity|]).
    by apply elem_of_nil in Hin.
Qed.

(** * The client at work on the sample runtime *)

Import Sample.

(** C1: the code does not do what the claim asks.  [json.Marshal]
    fails on [{"score": NaN}]; in both files a POST with these
    parameters still sends a request, with no body, and [Call] returns
    the server's decoded answer and a nil error; nothing is logged. *)
Theorem C1_marshal_failure_is_swallowed :
  let params : GoMap Value := mkmap [("score", VNaN)] in
  let w := answering (inl (response 200 "{}")) in
  let a := ClientGo.Call api_client "POST" "/users" nilmap params w in
  let b := Part000.Call api_client "POST" "/users" nilmap params w in
  json_Marshal params = inr (Err "json: unsupported value: NaN")
  /\ a.1 = Return ((mkmap [], None), initialized api_client w)
  /\ b.1 = Return ((mkmap [], None), initialized api_client w)
  /\ (exists req, outbound w a.2 req /\ ReqBody req = None)
  /\ (exists req, outbound w b.2 req /\ ReqBody req = None)
  /\ log_lines a.2 = [] /\ log_lines b.2 = [].
Proof.
  intros params w a b.
  split; [reflexivity|]. split; [reflexivity|]. split; [reflexivity|].
  split; [|split; [|split; reflexivity]].
  - eexists. split; [exists 0; reflexivity | reflexivity].
  - eexists. split; [exists 0; reflexivity | reflexivity].
Qed.

(** C4 as stated fails.  In [src/client.go] a POST with the custom
    header [Content-Type: text/plain] (no default header has that name)
    goes out with [Content-Type: application/json]: the custom header
    is not in the final request.  And in either file two custom headers
    [x-a: 1] and [X-A: 2], distinct keys of the Go map, share one
    canonical name: whichever [range] visits last is the only one in
    the request. *)
Lemma C4_counterexample :
  let w := answering (inl (response 200 "{}")) in
  (let custom : GoMap Value := mkmap [("Content-Type", VStr "text/plain")] in
   exists req,
     outbound w (ClientGo.Call api_client "POST" "/users" custom nilmap w).2 req
     /\ ("Content-Type", VStr "text/plain") ∈ range custom
     /\ ("Content-Type" ∉ (range (headers api_client)).*1)
     /\ Header_Values (ReqHeader req) "Content-Type" = ["application/json"]
     /\ (Header_Values (ReqHeader req) "Content-Type"
         <> [ToString (VStr "text/plain")]))
  /\ (let custom : GoMap Value := mkmap [("x-a", VStr "1"); ("X-A", VStr "2")] in
      exists req,
        outbound w (Part000.Call api_client "GET" "/users" custom nilmap w).2 req
        /\ GoMap_wf custom
        /\ ("x-a", VStr "1") ∈ range custom
        /\ Header_Values (ReqHeader req) "x-a" <> [ToString (VStr "1")])
  /\ (let custom : GoMap Value := mkmap [("X-A", VStr "2"); ("x-a", VStr "1")] in
      exists req,
        outbound w (Part000.Call api_client "GET" "/users" custom nilmap w).2 req
        /\ GoMap_wf custom
        /\ ("X-A", VStr "2") ∈ range custom
        /\ Header_Values (ReqHeader req) "X-A" <> [ToString (VStr "2")]).
Proof.
  intros w. split; [|split]; intros custom.
  - eexists. split; [exists 0; reflexivity|].
    split; [apply list_elem_of_here|].
    split; [simpl; by intros ?%list_elem_of_singleton|].
    split; [reflexivity | by vm_compute].
  - eexists. split; [exists 0; reflexivity|].
    split; [unfold GoMap_wf; simpl; apply NoDup_cons; split;
            [by intros ?%list_elem_of_singleton | apply NoDup_singleton]|].
    split; [apply list_elem_of_here | by vm_compute].
  - eexists. split; [exists 0; reflexivity|].
    split; [unfold GoMap_wf; simpl; apply NoDup_cons; split;
            [by intros ?%list_elem_of_singleton | apply NoDup_singleton]|].
    split; [apply list_elem_of_here | by vm_compute].
Qed.

(** C6 as stated fails.  The body [{"ok":true} trailing] is not valid
    JSON: text follows the object.  The decoder reads the first JSON
    value and stops, so in both files [Call] returns the map of that
    object and a nil error. *)
Lemma C6_counterexample :
  let body := (ok_body ++ " trailing")%string in
  let w := answering (inl (response 200 body)) in
  is_object_document body = false
  /\ is_object_document ok_body = true
  /\ (ClientGo.Call api_client "POST" "/users" nilmap nilmap w).1
     = Return ((mkmap [("ok", JBool true)], None), initialized api_client w)
  /\ (Part000.Call api_client "GET" "/users" nilmap nilmap w).1
     = Return ((mkmap [("ok", JBool true)], None), initialized api_client w).
Proof. intros body w. by vm_compute. Qed.

Lemma C2_witness :
  let params : GoMap Value := mkmap [("name", VStr "bob"); ("age", VInt 42)] in
  let w := answering (inl (response 200 ok_body)) in
  exists req jsonData,
    json_Marshal params = inl jsonData
    /\ outbound w (ClientGo.Call api_client "POST" "/users" nilmap params w).2 req
    /\ ReqBody req = Some jsonData
    /\ Header_Get (ReqHeader req) "Content-Type" = "application/json".
Proof.
  intros params w.
  assert (ToUpper "POST" <> "GET") as Hm by (vm_compute; discriminate).
  destruct (C2_non_GET_request api_client "POST" "/users" nilmap params w Hm)
    as [Hct Hbody].
  destruct (Hbody _ eq_refl) as (Ha & _ & Hsent).
  destruct (Hsent _ eq_refl) as [[req Hout] _].
  exists req. eexists. split; [reflexivity|]. split; [exact Hout|].
  split; [exact (Ha req Hout) | exact (proj2 (Hct req Hout))].
Defined.

Lemma C3_witness :
  let params : GoMap Value := mkmap [("name", VStr "bob"); ("age", VInt 42)] in
  let w := answering (inl (response 200 ok_body)) in
  exists req comps,
    outbound w (Part000.Call api_client "get" "/users" nilmap params w).2 req
    /\ ReqBody req = None
    /\ RawQuery (ReqURL req) = String.concat "&" comps
    /\ "age=42" ∈ comps.
Proof.
  intros params w.
  destruct (C3_GET_request api_client "get" "/users" nilmap params w eq_refl)
    as (_ & Hreq & Hsent).
  destruct (Hsent _ eq_refl) as [_ [req Hout]].
  destruct (Hreq req (or_intror Hout)) as [Hbody Hq].
  destruct (Hq "age" (VInt 42)) as (comps & Hraw & Hin).
  { apply list_elem_of_further, list_elem_of_here. }
  exists req, comps. repeat split; assumption.
Defined.

Lemma C4_witness :
  let clt :=
    {| client := None; endpoint := "https://cloud.appwrite.io/v1";
       headers := mkmap [("X-Appwrite-Project", "p1"); ("X-Appwrite-Key", "k1")];
       selfSigned := false |} in
  let custom : GoMap Value :=
    mkmap [("x-appwrite-key", VStr "k2"); ("X-Trace", VStr "t")] in
  let w := answering (inl (response 200 ok_body)) in
  exists req,
    outbound w (ClientGo.Call clt "POST" "/users" custom nilmap w).2 req
    /\ Header_Values (ReqHeader req) "x-appwrite-key" = ["k2"]
    /\ Header_Values (ReqHeader req) "X-Appwrite-Key" = ["k2"]
    /\ Header_Values (ReqHeader req) "X-Appwrite-Project" = ["p1"].
Proof.
  intros clt custom w.
  assert (exists req,
             outbound w (ClientGo.Call clt "POST" "/users" custom nilmap w).2 req)
    as [req Hout] by (eexists; exists 0; reflexivity).
  destruct (C4_header_layers clt "POST" "/users" custom nilmap w req)
    as [Hgo _].
  destruct (Hgo Hout) as [Hcustom Hdefault].
  exists req. split; [exact Hout|]. split; [|split].
  - apply (Hcustom "x-appwrite-key" (VStr "k2")).
    + apply list_elem_of_here.
    + intros e He. simpl in He.
      apply elem_of_cons in He as [-> | He]; [reflexivity|].
      apply list_elem_of_singleton in He as ->. vm_compute. discriminate.
    + right. vm_compute. discriminate.
  - change (Header_Values (ReqHeader req) "X-Appwrite-Key")
      with (Header_Values (ReqHeader req) "x-appwrite-key").
    apply (Hcustom "x-appwrite-key" (VStr "k2")).
    + apply list_elem_of_here.
    + intros e He. simpl in He.
      apply elem_of_cons in He as [-> | He]; [reflexivity|].
      apply list_elem_of_singleton in He as ->. vm_compute. discriminate.
    + right. vm_compute. discriminate.
  - apply (Hdefault "X-Appwrite-Project" "p1").
    + apply list_elem_of_here.
    + intros e He. simpl in He.
      apply elem_of_cons in He as [-> | He]; [reflexivity|].
      apply list_elem_of_singleton in He as ->. vm_compute. discriminate.
    + intros e He. simpl in He.
      apply elem_of_cons in He as [-> | He]; [vm_compute; discriminate|].
      apply list_elem_of_singleton in He as ->. vm_compute. discriminate.
    + right. vm_compute. discriminate.
Defined.

Lemma C5_witness :
  let w := answering (inl (response 404 ok_body)) in
  (ClientGo.Call api_client "POST" "/users" nilmap nilmap w).1
  = Return ((mkmap [("ok", JBool true)], None), initialized api_client w)
  /\ (Part000.Call api_client "GET" "/users" nilmap nilmap w).1
     = Return ((mkmap [("ok", JBool true)], None), initialized api_client w)
  /\ (ClientGo.Call api_client "POST" "/users" nilmap nilmap
        (with_status (fun _ => 200%Z) w)).1
     = (ClientGo.Call api_client "POST" "/users" nilmap nilmap w).1.
Proof.
  intros w.
  destruct (C5_status_code_is_ignored api_client "POST" "/users" nilmap nilmap w)
    as [Hcode Hpost].
  destruct (C5_status_code_is_ignored api_client "GET" "/users" nilmap nilmap w)
    as [_ Hget].
  split; [|split].
  - eapply (Hpost _ (response 404 ok_body)); [reflexivity | reflexivity |].
    exists 0. reflexivity.
  - eapply (Hget _ (response 404 ok_body)); [reflexivity | reflexivity |].
    exists 0. reflexivity.
  - apply Hcode.
Defined.

Lemma C6_witness :
  let w := answering (inl (response 200 "<html>")) in
  (ClientGo.Call api_client "POST" "/users" nilmap nilmap w).1
  = Return ((nilmap,
             Some (Err "invalid character '<' looking for beginning of value")),
            initialized api_client w)
  /\ (Part000.Call api_client "GET" "/users" nilmap nilmap w).1
     = Return ((nilmap,
                Some (Err "invalid character '<' looking for beginning of value")),
               initialized api_client w).
Proof.
  intros w. split.
  - eapply (C6_decode_error_is_returned api_client "POST" "/users" nilmap nilmap
              w _ (response 200 "<html>")); [reflexivity | reflexivity |].
    exists 0. reflexivity.
  - eapply (C6_decode_error_is_returned api_client "GET" "/users" nilmap nilmap
              w _ (response 200 "<html>")); [reflexivity | reflexivity |].
    exists 0. reflexivity.
Defined.

Lemma C7_witness :
  let w := answering (inl (response 200 ok_body)) in
  let ops : list Op :=
    [OpSetEndpoint "https://cloud.appwrite.io/v1";
     OpCall "GET" "/users" nilmap nilmap;
     OpSetSelfSigned true;
     OpCall "POST" "/users" nilmap (mkmap [("name", VStr "bob")])] in
  exists new,
    sent (ClientGo.run api_client ops w).2 = sent w ++ new
    /\ Forall (fun hr => hr.1 = 0) new
    /\ length new = 2
    /\ next_handle (ClientGo.run api_client ops w).2 = 1.
Proof.
  intros w ops.
  destruct C7_one_transport_handle as [[_ Hrun] _].
  destruct (Hrun api_client ops w) as (new & Hs & Hall & Hn & _).
  exists new. split; [exact Hs|]. split; [exact Hall|].
  split; [|reflexivity].
  assert (length (sent (ClientGo.run api_client ops w).2) = 2) as H2
      by reflexivity.
  rewrite Hs, length_app in H2. exact H2.
Defined.


Lemma C9_witness :
  headers zero_Client = nilmap
  /\ AddHeader zero_Client "X-Trace" "t" = Panic "assignment to entry in nil map"
  /\ SetProject zero_Client "p1" = Panic "assignment to entry in nil map".
Proof.
  split; [reflexivity|].
  destruct (C9_setters_panic_on_nil_headers zero_Client "X-Trace" "t" eq_refl)
    as (Hadd & _).
  destruct (C9_setters_panic_on_nil_headers zero_Client "X-Trace" "p1" eq_refl)
    as (_ & Hproject & _).
  split; assumption.
Defined.

Lemma C10_witness :
  let w := answering (inl (response 200 ok_body)) in
  exists res clt' w',
    Part000.Call api_client "POST" "/users" nilmap nilmap w = (Return (res, clt'), w')
    /\ endpoint clt' = "https://cloud.appwrite.io/v1"
    /\ headers clt' = mkmap [("X-Appwrite-Project", "p1")]
    /\ selfSigned clt' = false
    /\ client clt' = Some 0.
Proof.
  intros w.
  destruct C10_Call_frame as [_ Hframe].
  destruct (Hframe api_client "POST" "/users" nilmap nilmap w)
    as (res & clt' & w' & E & He & Hh & Hs & Hc & _).
  exists res, clt', w'. repeat split; assumption.
Defined.

(** ** The further properties on the sample runtime *)

Lemma api_client_wf : GoMap_wf (headers api_client).
Proof. unfold GoMap_wf. simpl. apply NoDup_singleton. Defined.

Lemma api_client_no_other_name name :
  CanonicalMIMEHeaderKey "X-Appwrite-Project" <> CanonicalMIMEHeaderKey name ->
  forall e, e ∈ range (headers api_client) ->
    CanonicalMIMEHeaderKey e.1 = CanonicalMIMEHeaderKey name -> e.1 = name.
Proof.
  intros Hne e He Hc. simpl in He. apply list_elem_of_singleton in He as ->.
  by destruct Hne.
Defined.

Lemma nilmap_no_name {V} name : no_name name (range (@nilmap V)).
Proof. intros e He. by apply elem_of_nil in He. Defined.

Lemma AddHeader_records_witness :
  exists clt',
    AddHeader api_client "X-Trace" "t" = Return clt'
    /\ ("X-Trace", "t") ∈ range (headers clt')
    /\ ("X-Appwrite-Project", "p1") ∈ range (headers clt')
    /\ GoMap_wf (headers clt').
Proof.
  destruct (AddHeader_records api_client "X-Trace" "t")
    as (clt' & E & _ & _ & _ & _ & Hwf & Hin).
  - discriminate.
  - exact api_client_wf.
  - exists clt'. split; [exact E|]. split; [|split; [|exact Hwf]].
    + apply Hin. left. split; reflexivity.
    + apply Hin. right. split; [discriminate | apply list_elem_of_here].
Defined.

Lemma AddHeader_last_wins_witness :
  AddHeader
    {| client := None; endpoint := "https://cloud.appwrite.io/v1";
       headers := mkmap [("X-Appwrite-Project", "p1"); ("X-Trace", "a")];
       selfSigned := false |} "X-Trace" "b"
  = AddHeader api_client "X-Trace" "b".
Proof.
  apply (AddHeader_last_wins api_client _ "X-Trace" "a" "b"). reflexivity.
Defined.

Lemma AddHeader_then_Call_witness :
  let clt' :=
    {| client := None; endpoint := "https://cloud.appwrite.io/v1";
       headers := mkmap [("X-Appwrite-Project", "p1"); ("X-Trace", "t")];
       selfSigned := false |} in
  let w := answering (inl (response 200 ok_body)) in
  AddHeader api_client "X-Trace" "t" = Return clt'
  /\ exists req,
      outbound w (ClientGo.Call clt' "POST" "/users" nilmap nilmap w).2 req
      /\ Header_Values (ReqHeader req) "X-Trace" = ["t"].
Proof.
  intros clt' w. split; [reflexivity|].
  assert (exists req,
             outbound w (ClientGo.Call clt' "POST" "/users" nilmap nilmap w).2 req)
    as [req Hout] by (eexists; exists 0; reflexivity).
  exists req. split; [exact Hout|].
  apply (AddHeader_then_Call api_client clt' "X-Trace" "t" "POST" "/users"
           nilmap nilmap w req api_client_wf eq_refl).
  - apply api_client_no_other_name. vm_compute. discriminate.
  - apply nilmap_no_name.
  - right. vm_compute. discriminate.
  - exact Hout.
Defined.

Lemma well_known_header_is_sent_witness :
  let clt' :=
    {| client := None; endpoint := "https://cloud.appwrite.io/v1";
       headers := mkmap [("X-Appwrite-Project", "p1"); ("X-Appwrite-Key", "k1")];
       selfSigned := false |} in
  let w := answering (inl (response 200 ok_body)) in
  SetKey api_client "k1" = Return clt'
  /\ exists req,
      outbound w (Part000.Call clt' "GET" "/users" nilmap nilmap w).2 req
      /\ Header_Values (ReqHeader req) "X-Appwrite-Key" = ["k1"].
Proof.
  intros clt' w. split; [reflexivity|].
  assert (exists req,
             outbound w (Part000.Call clt' "GET" "/users" nilmap nilmap w).2 req)
    as [req Hout] by (eexists; exists 0; reflexivity).
  exists req. split; [exact Hout|].
  apply (well_known_header_is_sent "X-Appwrite-Key" SetKey api_client clt'
           "k1" "GET" "/users" nilmap nilmap w req).
  - apply list_elem_of_further, list_elem_of_here.
  - exact api_client_wf.
  - reflexivity.
  - apply api_client_no_other_name. vm_compute. discriminate.
  - apply nilmap_no_name.
  - right. exact Hout.
Defined.

Lemma request_target_witness :
  let clt :=
    {| client := None; endpoint := "http://example.com:/v1";
       headers := nilmap; selfSigned := false |} in
  let w := answering (inl (response 200 ok_body)) in
  exists req,
    outbound w (ClientGo.Call clt "PUT" "/users" nilmap nilmap w).2 req
    /\ Scheme (ReqURL req) = "http"
    /\ Host (ReqURL req) = "example.com"
    /\ Path (ReqURL req) = "/v1/users"
    /\ Method req = "PUT".
Proof.
  intros clt w.
  assert (exists req,
             outbound w (ClientGo.Call clt "PUT" "/users" nilmap nilmap w).2 req)
    as [req Hout] by (eexists; exists 0; reflexivity).
  destruct (request_target clt "PUT" "/users" nilmap nilmap w req
              (or_introl Hout)) as (u & Hu & Hs & Hh & Hp & _ & _ & Hm).
  vm_compute in Hu. injection Hu as <-.
  exists req. repeat split; assumption.
Defined.

Lemma construction_errors_witness :
  let w := answering (inl (response 200 ok_body)) in
  let newline := String (ascii_of_nat 10) EmptyString in
  ((ClientGo.Call api_client "GE T" "/users" nilmap nilmap w).1
   = Return ((nilmap,
              Some (Err ("net/http: invalid method " ++ quote "GE T")%string)),
             initialized api_client w)
   /\ sent (ClientGo.Call api_client "GE T" "/users" nilmap nilmap w).2 = sent w)
  /\ ((Part000.Call api_client "GET" ("/users" ++ newline) nilmap nilmap w).1
      = Return ((nilmap,
                 Some (Err ("parse " ++ quote "https://cloud.appwrite.io/v1/users\n"
                            ++ ": net/url: invalid control character in URL")%string)),
                initialized api_client w)
      /\ sent (Part000.Call api_client "GET" ("/users" ++ newline) nilmap nilmap w).2
         = sent w).
Proof.
  intros w newline. split.
  - destruct (construction_errors api_client "GE T" "/users" nilmap nilmap w
                (Err ("net/http: invalid method " ++ quote "GE T")%string))
      as (Hr & Hs & _).
    + left. split; [discriminate|]. split; reflexivity.
    + split; assumption.
  - destruct (construction_errors api_client "GET" ("/users" ++ newline)%string
                nilmap nilmap w
                (Err ("parse " ++ quote "https://cloud.appwrite.io/v1/users\n"
                      ++ ": net/url: invalid control character in URL")%string))
      as (_ & _ & Hr & Hs).
    + right. split; [right; reflexivity | reflexivity].
    + split; assumption.
Defined.

Lemma transport_error_is_returned_witness :
  let w := answering (inr (Err "dial tcp: connection refused")) in
  (Part000.Call api_client "POST" "/users" nilmap nilmap w).1
  = Return ((nilmap, Some (Err "dial tcp: connection refused")),
            initialized api_client w).
Proof.
  intros w.
  assert (exists req,
             outbound w (Part000.Call api_client "POST" "/users" nilmap nilmap w).2 req)
    as [req Hout] by (eexists; exists 0; reflexivity).
  exact (proj2 (transport_error_is_returned api_client "POST" "/users" nilmap
                  nilmap w req (Err "dial tcp: connection refused") eq_refl)
           Hout).
Defined.

Lemma error_comes_with_nil_map_witness :
  let w := answering (inl (response 200 "<html>")) in
  exists m err clt',
    (ClientGo.Call api_client "POST" "/users" nilmap nilmap w).1
    = Return ((m, Some err), clt')
    /\ m = nilmap.
Proof.
  intros w. eexists _, _, _. split; [reflexivity|].
  exact (error_comes_with_nil_map api_client _ "POST" "/users" nilmap nilmap w
           _ _ (or_introl eq_refl)).
Defined.

Lemma empty_method_is_GET_with_body_witness :
  let params : GoMap Value := mkmap [("name", VStr "bob")] in
  let w := answering (inl (response 200 ok_body)) in
  exists req jsonData,
    json_Marshal params = inl jsonData
    /\ outbound w (Part000.Call api_client "" "/users" nilmap params w).2 req
    /\ Method req = "GET"
    /\ ReqBody req = Some jsonData
    /\ RawQuery (ReqURL req) = "".
Proof.
  intros params w.
  destruct (empty_method_is_GET_with_body api_client "/users" nilmap params w
              _ _ eq_refl eq_refl) as [_ (req & Hout & Hm & Hb & Hq & _)].
  exists req. eexists. split; [reflexivity|].
  split; [exact Hout|]. split; [exact Hm|]. split; [exact Hb|].
  exact Hq.
Defined.

Lemma setters_do_no_io_witness :
  let w := answering (inl (response 200 ok_body)) in
  let ops : list Op :=
    [OpSetEndpoint "http://localhost/v1"; OpSetProject "p2";
     OpAddHeader "X-Trace" "t"; OpSetSelfSigned true] in
  (ClientGo.run api_client ops w).2 = w /\ (Part000.run api_client ops w).2 = w.
Proof.
  intros w ops.
  destruct (setters_do_no_io api_client ops w eq_refl) as [[Ha _] [Hb _]].
  split; assumption.
Defined.

Lemma Part000_sends_no_Content_Type_witness :
  let params : GoMap Value := mkmap [("name", VStr "bob")] in
  let w := answering (inl (response 200 ok_body)) in
  exists req,
    outbound w (Part000.Call api_client "POST" "/users" nilmap params w).2 req
    /\ is_Some (ReqBody req)
    /\ Header_Get (ReqHeader req) "Content-Type" = "".
Proof.
  intros params w.
  assert (exists req,
             outbound w (Part000.Call api_client "POST" "/users" nilmap params w).2 req)
    as [req Hout] by (eexists; exists 0; reflexivity).
  destruct (Part000_sends_no_Content_Type api_client "POST" "/users" nilmap
              params w req _ ltac:(vm_compute; discriminate) eq_refl)
    as (Hb & _ & Hg).
  - intros e He. simpl in He. apply list_elem_of_singleton in He as ->.
    vm_compute. discriminate.
  - apply nilmap_no_name.
  - exact Hout.
  - exists req. split; [exact Hout|]. split; [by rewrite Hb | exact Hg].
Defined.

